(** * AI task agent: task store, analysis pipeline, completion

    A shallow embedding of [taskAgent.py] (OpenAI binding) and
    [taskAgentClaude.py] (Anthropic binding).  The class [AITaskAgent] is
    embedded as state-passing code over one [state] record holding the
    object's two attributes together with the part of the outside world the
    methods touch: the file [tasks.json], the wall clock and the requests
    sent to the AI provider.  Python exceptions are explicit results. *)

From Stdlib Require Import String Ascii ZArith List Bool Lia.
Import ListNotations.

Local Open Scope list_scope.
Local Open Scope string_scope.
Local Set Warnings "-register-all".

(** ** Python values

    Everything the agent stores comes from [json.load], [json.loads], an
    [int], or a [str]; such a value is one of the shapes below.  A [dict] is
    an association list in insertion order (the order [json.dump] writes).
    Numbers are Python [int]s; [float]s are outside this embedding. *)

Inductive json : Type :=
| JNull
| JBool (b : bool)
| JInt (n : Z)
| JStr (s : string)
| JArr (items : list json)
| JObj (fields : list (string * json)).

Inductive exn : Type :=
| FileNotFoundError
| PermissionError
| JSONDecodeError
| KeyError (key : string)
| TypeError
| AttributeError
| APIError.

Inductive outcome (A : Type) : Type :=
| Return (a : A)
| Raise (e : exn).

Arguments Return {A} a.
Arguments Raise {A} e.

(** [d.get(k)]: the value stored under [k], if any. *)
Fixpoint dict_get (k : string) (d : list (string * json)) : option json :=
  match d with
  | [] => None
  | (k', v) :: rest => if String.eqb k k' then Some v else dict_get k rest
  end.

(** [d[k] = v]: overwrite in place, or insert at the end. *)
Fixpoint dict_set (k : string) (v : json) (d : list (string * json))
  : list (string * json) :=
  match d with
  | [] => [(k, v)]
  | (k', v') :: rest =>
      if String.eqb k k' then (k', v) :: rest else (k', v') :: dict_set k v rest
  end.

(** [obj[k]] for a string key [k]. *)
Definition py_getitem (obj : json) (k : string) : outcome json :=
  match obj with
  | JObj d => match dict_get k d with
              | Some v => Return v
              | None => Raise (KeyError k)
              end
  | _ => Raise TypeError
  end.

(** [obj[k] = v] for a string key [k]. *)
Definition py_setitem (obj : json) (k : string) (v : json) : outcome json :=
  match obj with
  | JObj d => Return (JObj (dict_set k v d))
  | _ => Raise TypeError
  end.

(** [len(obj)]. *)
Definition py_len (obj : json) : outcome nat :=
  match obj with
  | JArr l => Return (List.length l)
  | JObj d => Return (List.length d)
  | JStr s => Return (String.length s)
  | _ => Raise TypeError
  end.

(** Truth value of [obj], as tested by [if not obj]. *)
Definition py_truthy (obj : json) : bool :=
  match obj with
  | JNull => false
  | JBool b => b
  | JInt n => negb (Z.eqb n 0)
  | JStr s => negb (String.eqb s "")
  | JArr l => match l with [] => false | _ => true end
  | JObj d => match d with [] => false | _ => true end
  end.

Fixpoint chars (s : string) : list json :=
  match s with
  | EmptyString => []
  | String c rest => JStr (String c EmptyString) :: chars rest
  end.

(** The items [for x in obj] visits. *)
Definition py_iter (obj : json) : outcome (list json) :=
  match obj with
  | JArr l => Return l
  | JObj d => Return (map (fun kv => JStr (fst kv)) d)
  | JStr s => Return (chars s)
  | _ => Raise TypeError
  end.

(** [obj.append(x)]. *)
Definition py_append (obj x : json) : outcome json :=
  match obj with
  | JArr l => Return (JArr (l ++ [x]))
  | _ => Raise AttributeError
  end.

(** [v == n] for an [int] n ([True == 1] and [False == 0] in Python). *)
Definition py_eq_int (v : json) (n : Z) : bool :=
  match v with
  | JInt m => Z.eqb m n
  | JBool b => Z.eqb (if b then 1 else 0) n
  | _ => false
  end.

(** [v == s] for a [str] s. *)
Definition py_eq_str (v : json) (s : string) : bool :=
  match v with
  | JStr s' => String.eqb s' s
  | _ => false
  end.

(** [l[i]] replaced by [x]. *)
Fixpoint list_set (i : nat) (x : json) (l : list json) : list json :=
  match l, i with
  | [], _ => []
  | _ :: rest, O => x :: rest
  | y :: rest, S j => y :: list_set j x rest
  end.

(** ** The world around the agent *)

(** The file [tasks.json]. [Locked] stands for any state in which [open]
    raises an [OSError] other than [FileNotFoundError]. *)
Inductive file : Type :=
| Absent
| Locked
| Present (content : string).

(** The two provider bindings. *)
Inductive binding : Type := OpenAI | Claude.

(** What [client. ... .create] is called with. *)
Record request : Type := mkRequest {
  model : string;
  max_tokens : option Z;
  content : string
}.

Record state : Type := mkState {
  tasks : json;               (* self.tasks *)
  task_history : list json;   (* self.task_history *)
  disk : file;                (* tasks.json *)
  ticks : nat;                (* readings of datetime.now() so far *)
  outbox : list request       (* requests sent to the provider so far *)
}.

(** Library functions and the environment's answers.  [json_loads] is
    [json.loads] / [json.load] ([None]: [JSONDecodeError]); [json_dumps] is
    [json.dumps(., indent=2)], the text [json.dump(., f, indent=2)] writes;
    [py_str] is [str(.)], which f-strings apply; [isoformat_now n] is what
    the n-th [datetime.now().isoformat()] returns; [provider n r] is the text
    of the reply to the n-th request ([None]: the call raises). *)
Class Host : Type := {
  json_loads : string -> option json;
  json_dumps : json -> string;
  py_str : json -> string;
  isoformat_now : nat -> string;
  provider : nat -> request -> option string
}.

(** ** State and exception monad *)

Definition M (A : Type) : Type := state -> outcome A * state.

Definition ret {A} (a : A) : M A := fun st => (Return a, st).

Definition raise {A} (e : exn) : M A := fun st => (Raise e, st).

Definition bind {A B} (c : M A) (k : A -> M B) : M B :=
  fun st =>
    match c st with
    | (Return a, st') => k a st'
    | (Raise e, st') => (Raise e, st')
    end.

Definition lift {A} (o : outcome A) : M A := fun st => (o, st).

Definition get : M state := fun st => (Return st, st).

(** [try: c  except <the exceptions h handles>: h e]. *)
Definition try_except {A} (c : M A) (h : exn -> option (M A)) : M A :=
  fun st =>
    match c st with
    | (Return a, st') => (Return a, st')
    | (Raise e, st') => match h e with
                        | Some handler => handler st'
                        | None => (Raise e, st')
                        end
    end.

Declare Scope agent_scope.
Delimit Scope agent_scope with agent.
Notation "x <- c ;; k" := (bind c (fun x => k))
  (at level 61, c at next level, right associativity) : agent_scope.
Notation "c ;; k" := (bind c (fun _ => k))
  (at level 61, right associativity) : agent_scope.
Local Open Scope agent_scope.

Definition set_tasks (v : json) : M unit :=
  fun st => (Return tt,
             mkState v (task_history st) (disk st) (ticks st) (outbox st)).

Definition log_history (entry : json) : M unit :=
  fun st => (Return tt,
             mkState (tasks st) (task_history st ++ [entry]) (disk st)
                     (ticks st) (outbox st)).

(** [open('tasks.json', 'r')] followed by reading the whole file. *)
Definition read_file : M string :=
  fun st =>
    match disk st with
    | Absent => (Raise FileNotFoundError, st)
    | Locked => (Raise PermissionError, st)
    | Present text => (Return text, st)
    end.

(** [open('tasks.json', 'w')] followed by writing [text]. *)
Definition write_file (text : string) : M unit :=
  fun st =>
    match disk st with
    | Locked => (Raise PermissionError, st)
    | _ => (Return tt,
            mkState (tasks st) (task_history st) (Present text) (ticks st)
                    (outbox st))
    end.

Definition nl : string := String (ascii_of_nat 10) EmptyString.
Definition dq : string := String (ascii_of_nat 34) EmptyString.
Definition ind : string := "        ".

Fixpoint join (sep : string) (l : list string) : string :=
  match l with
  | [] => ""
  | [x] => x
  | x :: rest => x ++ sep ++ join sep rest
  end.

Definition model_of (b : binding) : string :=
  match b with
  | OpenAI => "gpt-3.5-turbo"
  | Claude => "claude-3-sonnet-20240229"
  end.

Definition max_tokens_of (b : binding) : option Z :=
  match b with
  | OpenAI => None
  | Claude => Some 1000%Z
  end.

(** The key under which each binding's [add_task] reads the estimate. *)
Definition estimate_key (b : binding) : string :=
  match b with
  | OpenAI => "estimated_time"
  | Claude => "estimated_time_to_complete"
  end.

Section Agent.

Context {H : Host}.

(** [datetime.now().isoformat()]. *)
Definition now : M string :=
  fun st => (Return (isoformat_now (ticks st)),
             mkState (tasks st) (task_history st) (disk st) (S (ticks st))
                     (outbox st)).

(** [self.client.chat.completions.create(...)] /
    [self.client.messages.create(...)] with the single user message
    [prompt], followed by taking the text of the reply. *)
Definition create_message (b : binding) (prompt : string) : M string :=
  fun st =>
    let r := mkRequest (model_of b) (max_tokens_of b) prompt in
    let st' := mkState (tasks st) (task_history st) (disk st) (ticks st)
                       (outbox st ++ [r]) in
    match provider (List.length (outbox st)) r with
    | Some text => (Return text, st')
    | None => (Raise APIError, st')
    end.

Definition loads (text : string) : outcome json :=
  match json_loads text with
  | Some v => Return v
  | None => Raise JSONDecodeError
  end.

Definition load_tasks : M json :=
  try_except
    (text <- read_file ;; lift (loads text))
    (fun e => match e with
              | FileNotFoundError => Some (ret (JArr []))
              | _ => None
              end).

Definition save_tasks : M unit :=
  st <- get ;;
  write_file (json_dumps (tasks st)).

(** [AITaskAgent(api_key)], started on a given disk, clock and outbox. *)
Definition init : M unit :=
  loaded <- load_tasks ;;
  fun st => (Return tt,
             mkState loaded [] (disk st) (ticks st) (outbox st)).

Definition analysis_prompt (description : string) : string :=
  "Analyze this task: " ++ dq ++ description ++ dq ++ nl ++
  ind ++ "Provide a JSON response with:" ++ nl ++
  ind ++ "1. Suggested priority (high/medium/low)" ++ nl ++
  ind ++ "2. Estimated time to complete (in hours)" ++ nl ++
  ind ++ "3. Category (e.g., development, writing, research)" ++ nl ++
  ind ++ "4. Any potential subtasks" ++ nl ++
  ind ++ "Base this on the task description and common project management practices.".

Definition analyze_task_description (b : binding) (description : string)
  : M json :=
  text <- create_message b (analysis_prompt description) ;;
  lift (loads text).

Definition new_task (n : nat) (description created : string)
    (priority estimate category subtasks : json) : json :=
  JObj [ ("id", JInt (Z.of_nat n + 1));
         ("description", JStr description);
         ("created_at", JStr created);
         ("priority", priority);
         ("estimated_hours", estimate);
         ("category", category);
         ("subtasks", subtasks);
         ("status", JStr "pending") ].

(** The OpenAI binding also prints the analysis to the console before it
    builds the task; the console is not part of [state]. *)
Definition add_task (b : binding) (description : string) : M string :=
  analysis <- analyze_task_description b description ;;
  st <- get ;;
  n <- lift (py_len (tasks st)) ;;
  created <- now ;;
  priority <- lift (py_getitem analysis "priority") ;;
  estimate <- lift (py_getitem analysis (estimate_key b)) ;;
  category <- lift (py_getitem analysis "category") ;;
  subtasks <- lift (py_getitem analysis "potential_subtasks") ;;
  let task := new_task n description created priority estimate category
                       subtasks in
  st <- get ;;
  appended <- lift (py_append (tasks st) task) ;;
  set_tasks appended ;;
  save_tasks ;;
  ret ("Added task with AI analysis: " ++ py_str task).

(** [[f(x) for x in l]], stopping at the first exception. *)
Fixpoint for_each {A B} (f : A -> outcome B) (l : list A) : outcome (list B) :=
  match l with
  | [] => Return []
  | x :: rest =>
      match f x with
      | Raise e => Raise e
      | Return y =>
          match for_each f rest with
          | Raise e => Raise e
          | Return ys => Return (y :: ys)
          end
      end
  end.

(** [[x for x in l if p(x)]], stopping at the first exception. *)
Fixpoint select {A} (p : A -> outcome bool) (l : list A) : outcome (list A) :=
  match l with
  | [] => Return []
  | x :: rest =>
      match p x with
      | Raise e => Raise e
      | Return keep =>
          match select p rest with
          | Raise e => Raise e
          | Return xs => Return (if keep then x :: xs else xs)
          end
      end
  end.

Definition task_line (t : json) : outcome string :=
  match py_getitem t "id" with
  | Raise e => Raise e
  | Return i =>
  match py_getitem t "description" with
  | Raise e => Raise e
  | Return d =>
  match py_getitem t "priority" with
  | Raise e => Raise e
  | Return p =>
  match py_getitem t "status" with
  | Raise e => Raise e
  | Return s =>
      Return ("Task " ++ py_str i ++ ": " ++ py_str d ++ " (Priority: " ++
              py_str p ++ ", Status: " ++ py_str s ++ ")")
  end end end end.

Definition recommendations_prompt (tasks_context : string) : string :=
  "Given these tasks:" ++ nl ++
  ind ++ tasks_context ++ nl ++
  ind ++ nl ++
  ind ++ "Provide recommendations for:" ++ nl ++
  ind ++ "1. Which task should be done next and why" ++ nl ++
  ind ++ "2. Any tasks that might be related or could be combined" ++ nl ++
  ind ++ "3. Suggestions for optimal task scheduling" ++ nl ++
  ind ++ "Consider priorities, deadlines, and task relationships in your analysis.".

Definition no_tasks_message : string := "No tasks available for analysis".

Definition get_smart_recommendations (b : binding) : M string :=
  st <- get ;;
  if negb (py_truthy (tasks st)) then ret no_tasks_message
  else
    items <- lift (py_iter (tasks st)) ;;
    lines <- lift (for_each task_line items) ;;
    create_message b (recommendations_prompt (join nl lines)).

Definition has_status (s : string) (t : json) : outcome bool :=
  match py_getitem t "status" with
  | Raise e => Raise e
  | Return v => Return (py_eq_str v s)
  end.

Definition report_context (completed pending : list json) (all : json)
  : string :=
  nl ++
  ind ++ "Completed Tasks: " ++ py_str (JInt (Z.of_nat (List.length completed))) ++ nl ++
  ind ++ "Pending Tasks: " ++ py_str (JInt (Z.of_nat (List.length pending))) ++ nl ++
  ind ++ "Task Details: " ++ json_dumps all ++ nl ++
  ind.

Definition report_prompt (context : string) : string :=
  "Based on this task data:" ++ nl ++
  ind ++ context ++ nl ++
  ind ++ nl ++
  ind ++ "Generate a concise progress report that includes:" ++ nl ++
  ind ++ "1. Overall progress summary" ++ nl ++
  ind ++ "2. Key achievements" ++ nl ++
  ind ++ "3. Areas needing attention" ++ nl ++
  ind ++ "4. Suggestions for improving productivity" ++ nl ++
  ind ++ "Use a professional but engaging tone.".

Definition generate_progress_report (b : binding) : M string :=
  st <- get ;;
  items <- lift (py_iter (tasks st)) ;;
  completed <- lift (select (has_status "completed") items) ;;
  items' <- lift (py_iter (tasks st)) ;;
  pending <- lift (select (has_status "pending") items') ;;
  create_message b
    (report_prompt (report_context completed pending (tasks st))).

(** The task object the loop variable is bound to is the [i]-th item of
    [self.tasks]: an assignment through the variable is an update of that
    item.  Only a list holds dicts that can be assigned through. *)
Definition update_task (i : nat) (f : json -> outcome json) : M unit :=
  st <- get ;;
  match tasks st with
  | JArr l =>
      match nth_error l i with
      | Some t => t' <- lift (f t) ;; set_tasks (JArr (list_set i t' l))
      | None => raise TypeError
      end
  | _ => raise TypeError
  end.

Definition task_at (i : nat) : M json :=
  st <- get ;;
  match tasks st with
  | JArr l => match nth_error l i with
              | Some t => ret t
              | None => raise TypeError
              end
  | _ => raise TypeError
  end.

Definition not_found_message : string := "Task not found".

(** The body of [for task in self.tasks], from the [i]-th item on. *)
Fixpoint complete_scan (task_id : Z) (i : nat) (items : list json)
  : M string :=
  match items with
  | [] => ret not_found_message
  | task :: rest =>
      v <- lift (py_getitem task "id") ;;
      if py_eq_int v task_id then
        update_task i (fun t => py_setitem t "status" (JStr "completed")) ;;
        stamp <- now ;;
        update_task i (fun t => py_setitem t "completed_at" (JStr stamp)) ;;
        logged <- now ;;
        log_history (JObj [ ("action", JStr "complete");
                            ("task_id", JInt task_id);
                            ("timestamp", JStr logged) ]) ;;
        save_tasks ;;
        task' <- task_at i ;;
        d <- lift (py_getitem task' "description") ;;
        ret ("Completed task: " ++ py_str d)
      else complete_scan task_id (S i) rest
  end.

Definition complete_task (task_id : Z) : M string :=
  st <- get ;;
  items <- lift (py_iter (tasks st)) ;;
  complete_scan task_id 0 items.

End Agent.

(** ** Reading the store *)

(** [task['id'] == task_id] evaluates to [True]. *)
Definition matches (task_id : Z) (t : json) : bool :=
  match py_getitem t "id" with
  | Return v => py_eq_int v task_id
  | Raise _ => false
  end.

(** [task['id'] == task_id] evaluates to [False] (without raising). *)
Definition skips (task_id : Z) (t : json) : bool :=
  match py_getitem t "id" with
  | Return v => negb (py_eq_int v task_id)
  | Raise _ => false
  end.

(** What the two assignments of [complete_task] do to the matched dict. *)
Definition mark_completed (stamp : string) (d : list (string * json))
  : list (string * json) :=
  dict_set "completed_at" (JStr stamp) (dict_set "status" (JStr "completed") d).

Definition history_entry (task_id : Z) (stamp : string) : json :=
  JObj [ ("action", JStr "complete");
         ("task_id", JInt task_id);
         ("timestamp", JStr stamp) ].

(** The field [k] of a task, if the task is a dict that has it. *)
Definition field (k : string) (t : json) : option json :=
  match t with
  | JObj d => dict_get k d
  | _ => None
  end.

(** ** The shapes of the results *)

Section Shapes.

Context {H : Host}.

Definition request_of (b : binding) (prompt : string) : request :=
  mkRequest (model_of b) (max_tokens_of b) prompt.

(** [st] after one more request has gone out. *)
Definition sent (r : request) (st : state) : state :=
  mkState (tasks st) (task_history st) (disk st) (ticks st) (outbox st ++ [r]).

(** [st] after one more reading of the clock. *)
Definition ticked (st : state) : state :=
  mkState (tasks st) (task_history st) (disk st) (S (ticks st)) (outbox st).

(** The dict literal of [add_task], given the analysis. *)
Definition assemble (b : binding) (n : nat) (description created : string)
    (analysis : json) : outcome json :=
  match py_getitem analysis "priority" with
  | Raise e => Raise e
  | Return priority =>
  match py_getitem analysis (estimate_key b) with
  | Raise e => Raise e
  | Return estimate =>
  match py_getitem analysis "category" with
  | Raise e => Raise e
  | Return category =>
  match py_getitem analysis "potential_subtasks" with
  | Raise e => Raise e
  | Return subtasks =>
      Return (new_task n description created priority estimate category subtasks)
  end end end end.

Definition added_message (task : json) : string :=
  "Added task with AI analysis: " ++ py_str task.

(** The state [complete_task] leaves when the first match is the dict [d]
    standing between [pre] and [post]. *)
Definition completed_state (st : state) (pre : list json)
    (d : list (string * json)) (post : list json) (task_id : Z) : state :=
  let ts' := JArr (pre ++ JObj (mark_completed (isoformat_now (ticks st)) d) :: post) in
  mkState ts'
    (task_history st ++ [history_entry task_id (isoformat_now (S (ticks st)))])
    (match disk st with Locked => Locked | _ => Present (json_dumps ts') end)
    (S (S (ticks st)))
    (outbox st).

(** ... and what it returns or raises there. *)
Definition completed_result (st : state) (d : list (string * json))
  : outcome string :=
  match disk st with
  | Locked => Raise PermissionError
  | _ =>
      match dict_get "description" (mark_completed (isoformat_now (ticks st)) d) with
      | Some v => Return ("Completed task: " ++ py_str v)
      | None => Raise (KeyError "description")
      end
  end.

(** [st] after [save_tasks] has written the collection out. *)
Definition written (st : state) : state :=
  mkState (tasks st) (task_history st) (Present (json_dumps (tasks st)))
          (ticks st) (outbox st).

End Shapes.

(** ** A concrete host

    A JSON codec for the values above, written after the format of
    [json.dumps(., indent=2)] (one item per line, two spaces per level, a
    colon and a space after each key, empty containers on one line), a
    rendering of [str(.)], a clock and a provider.  The properties below hold
    for every [Host]; this one runs them on concrete data. *)

Module PyJson.

(** *** Printing

    Each printer writes its text in front of the text [k] that follows. *)

Fixpoint pad (n : nat) (k : string) : string :=
  match n with
  | O => k
  | S m => String " " (pad m k)
  end.

Definition digit (n : nat) : ascii := ascii_of_nat (48 + n).

Fixpoint digits_of (fuel n : nat) (k : string) : string :=
  match fuel with
  | O => k
  | S f =>
      let k' := String (digit (n mod 10)) k in
      match n / 10 with
      | O => k'
      | q => digits_of f q k'
      end
  end.

Definition decimal_onto (z : Z) (k : string) : string :=
  match z with
  | Z0 => String "0" k
  | Zpos p => digits_of (S (Pos.to_nat p)) (Pos.to_nat p) k
  | Zneg p => String "-" (digits_of (S (Pos.to_nat p)) (Pos.to_nat p) k)
  end.

Definition decimal_nat (n : nat) : string := digits_of (S n) n "".

Definition decimal (z : Z) : string := decimal_onto z "".

Definition hex_digit (n : nat) : ascii :=
  if Nat.ltb n 10 then ascii_of_nat (48 + n) else ascii_of_nat (87 + n).

(** As with [ensure_ascii]: only the characters from the space to the tilde
    stand for themselves. *)
Definition escape_char (c : ascii) : string :=
  let n := nat_of_ascii c in
  if Nat.eqb n 34 then "\" ++ dq
  else if Nat.eqb n 92 then "\\"
  else if Nat.eqb n 10 then "\n"
  else if Nat.eqb n 13 then "\r"
  else if Nat.eqb n 9 then "\t"
  else if Nat.eqb n 8 then "\b"
  else if Nat.eqb n 12 then "\f"
  else if orb (Nat.ltb n 32) (Nat.ltb 126 n) then
    "\u00" ++ String (hex_digit (n / 16)) (String (hex_digit (n mod 16)) "")
  else String c "".

Fixpoint escape_onto (s : string) (k : string) : string :=
  match s with
  | EmptyString => k
  | String c rest => escape_char c ++ escape_onto rest k
  end.

Definition quote_onto (s : string) (k : string) : string :=
  String (ascii_of_nat 34) (escape_onto s (String (ascii_of_nat 34) k)).

(** The items of a container after its first: a comma and a new line
    before each, [close] after the last. *)
Definition listed {A : Type} (one : A -> string -> string) (close : string)
  : list A -> string :=
  fix more (l : list A) : string :=
    match l with
    | [] => close
    | y :: rest => "," ++ nl ++ one y (more rest)
    end.

Fixpoint emit (level : nat) (v : json) (k : string) : string :=
  match v with
  | JNull => "null" ++ k
  | JBool true => "true" ++ k
  | JBool false => "false" ++ k
  | JInt n => decimal_onto n k
  | JStr s => quote_onto s k
  | JArr [] => "[]" ++ k
  | JArr (x :: l) =>
      "[" ++ nl ++
      pad (2 * S level)
          (emit (S level) x
             (listed (fun y k' => pad (2 * S level) (emit (S level) y k'))
                     (nl ++ pad (2 * level) ("]" ++ k)) l))
  | JObj [] => "{}" ++ k
  | JObj (kx :: d) =>
      "{" ++ nl ++
      pad (2 * S level)
          (quote_onto (fst kx)
             (": " ++
              emit (S level) (snd kx)
                (listed (fun ky k' =>
                           pad (2 * S level)
                               (quote_onto (fst ky)
                                  (": " ++ emit (S level) (snd ky) k')))
                        (nl ++ pad (2 * level) ("}" ++ k)) d)))
  end.

Definition dumps (v : json) : string := emit 0 v "".

(** *** Parsing *)

Definition is_space (c : ascii) : bool :=
  let n := nat_of_ascii c in
  orb (orb (Nat.eqb n 32) (Nat.eqb n 10)) (orb (Nat.eqb n 13) (Nat.eqb n 9)).

Fixpoint skip_ws (s : string) : string :=
  match s with
  | String c rest => if is_space c then skip_ws rest else s
  | EmptyString => s
  end.

Fixpoint expect (word s : string) : option string :=
  match word, s with
  | EmptyString, _ => Some s
  | String a w, String b rest => if Ascii.eqb a b then expect w rest else None
  | _, EmptyString => None
  end.

Definition digit_value (c : ascii) : option nat :=
  let n := nat_of_ascii c in
  if andb (Nat.leb 48 n) (Nat.leb n 57) then Some (n - 48) else None.

Definition hex_value (c : ascii) : option nat :=
  let n := nat_of_ascii c in
  if andb (Nat.leb 48 n) (Nat.leb n 57) then Some (n - 48)
  else if andb (Nat.leb 97 n) (Nat.leb n 102) then Some (n - 87)
  else if andb (Nat.leb 65 n) (Nat.leb n 70) then Some (n - 55)
  else None.

(** The digits at the head of [s], read onto [acc]. *)
Fixpoint read_digits (acc : Z) (s : string) : Z * string :=
  match s with
  | String c rest =>
      match digit_value c with
      | Some d => read_digits (10 * acc + Z.of_nat d) rest
      | None => (acc, s)
      end
  | EmptyString => (acc, s)
  end.

Definition starts_with_digit (s : string) : bool :=
  match s with
  | String c _ => match digit_value c with Some _ => true | None => false end
  | EmptyString => false
  end.

Definition parse_int (s : string) : option (json * string) :=
  match s with
  | String c rest =>
      if Ascii.eqb c "-"%char then
        if starts_with_digit rest then
          let (n, rest') := read_digits 0 rest in Some (JInt (- n), rest')
        else None
      else if starts_with_digit s then
        let (n, rest') := read_digits 0 s in Some (JInt n, rest')
      else None
  | EmptyString => None
  end.

(** The text of a string literal after its opening quote. *)
Fixpoint parse_chars (s : string) : option (string * string) :=
  match s with
  | EmptyString => None
  | String c rest =>
      let n := nat_of_ascii c in
      if Nat.eqb n 34 then Some ("", rest)
      else if Nat.eqb n 92 then
        match rest with
        | String e rest' =>
            let m := nat_of_ascii e in
            let plain (x : nat) :=
              match parse_chars rest' with
              | Some (t, r) => Some (String (ascii_of_nat x) t, r)
              | None => None
              end in
            if Nat.eqb m 34 then plain 34
            else if Nat.eqb m 92 then plain 92
            else if Nat.eqb m 47 then plain 47
            else if Nat.eqb m 110 then plain 10
            else if Nat.eqb m 114 then plain 13
            else if Nat.eqb m 116 then plain 9
            else if Nat.eqb m 98 then plain 8
            else if Nat.eqb m 102 then plain 12
            else if Nat.eqb m 117 then
              match rest' with
              | String h1 (String h2 (String h3 (String h4 rest''))) =>
                  match hex_value h1, hex_value h2, hex_value h3, hex_value h4 with
                  | Some 0, Some 0, Some a, Some b =>
                      match parse_chars rest'' with
                      | Some (t, r) => Some (String (ascii_of_nat (16 * a + b)) t, r)
                      | None => None
                      end
                  | _, _, _, _ => None
                  end
              | _ => None
              end
            else None
        | EmptyString => None
        end
      else if Nat.ltb n 32 then None
      else
        match parse_chars rest with
        | Some (t, r) => Some (String c t, r)
        | None => None
        end
  end.

Definition head_is (c : ascii) (s : string) : option string :=
  match s with
  | String c' rest => if Ascii.eqb c c' then Some rest else None
  | EmptyString => None
  end.

(** Later values win over earlier ones under the same key, as in the Python
    [dict] built from the pairs of a JSON object. *)
Definition dict_of_pairs (pairs : list (string * json)) : list (string * json) :=
  fold_left (fun d kv => dict_set (fst kv) (snd kv) d) pairs [].

Fixpoint parse_value (fuel : nat) (s : string) : option (json * string) :=
  match fuel with
  | O => None
  | S f =>
      match skip_ws s with
      | EmptyString => None
      | String c rest as s' =>
          let n := nat_of_ascii c in
          if Nat.eqb n 110 then
            match expect "null" s' with Some r => Some (JNull, r) | None => None end
          else if Nat.eqb n 116 then
            match expect "true" s' with Some r => Some (JBool true, r) | None => None end
          else if Nat.eqb n 102 then
            match expect "false" s' with Some r => Some (JBool false, r) | None => None end
          else if Nat.eqb n 34 then
            match parse_chars rest with
            | Some (t, r) => Some (JStr t, r)
            | None => None
            end
          else if Nat.eqb n 91 then
            match head_is "]"%char (skip_ws rest) with
            | Some r => Some (JArr [], r)
            | None =>
                match parse_items f rest with
                | Some (l, r) => Some (JArr l, r)
                | None => None
                end
            end
          else if Nat.eqb n 123 then
            match head_is "}"%char (skip_ws rest) with
            | Some r => Some (JObj [], r)
            | None =>
                match parse_members f rest with
                | Some (d, r) => Some (JObj (dict_of_pairs d), r)
                | None => None
                end
            end
          else parse_int s'
      end
  end

with parse_items (fuel : nat) (s : string) : option (list json * string) :=
  match fuel with
  | O => None
  | S f =>
      match parse_value f s with
      | None => None
      | Some (v, r) =>
          match skip_ws r with
          | String c r' =>
              if Ascii.eqb c ","%char then
                match parse_items f r' with
                | Some (l, r'') => Some (v :: l, r'')
                | None => None
                end
              else if Ascii.eqb c "]"%char then Some ([v], r')
              else None
          | EmptyString => None
          end
      end
  end

with parse_members (fuel : nat) (s : string)
  : option (list (string * json) * string) :=
  match fuel with
  | O => None
  | S f =>
      match head_is (ascii_of_nat 34) (skip_ws s) with
      | None => None
      | Some r0 =>
          match parse_chars r0 with
          | None => None
          | Some (k, r1) =>
              match head_is ":"%char (skip_ws r1) with
              | None => None
              | Some r2 =>
                  match parse_value f r2 with
                  | None => None
                  | Some (v, r3) =>
                      match skip_ws r3 with
                      | String c r4 =>
                          if Ascii.eqb c ","%char then
                            match parse_members f r4 with
                            | Some (d, r5) => Some ((k, v) :: d, r5)
                            | None => None
                            end
                          else if Ascii.eqb c "}"%char then Some ([(k, v)], r4)
                          else None
                      | EmptyString => None
                      end
                  end
              end
          end
      end
  end.

Definition loads (s : string) : option json :=
  match parse_value (S (String.length s)) s with
  | Some (v, r) => match skip_ws r with
                   | EmptyString => Some v
                   | _ => None
                   end
  | None => None
  end.

(** *** The values the codec is exact on *)

Fixpoint unique (keys : list string) : bool :=
  match keys with
  | [] => true
  | k :: rest => negb (existsb (String.eqb k) rest) && unique rest
  end.

(** No dict, at any depth, has a key twice: the values that are Python
    values. *)
Fixpoint plain (v : json) : bool :=
  match v with
  | JArr l => forallb plain l
  | JObj d => unique (map fst d) && forallb (fun kv => plain (snd kv)) d
  | _ => true
  end.

(** The fuel [parse_value] needs on the text of [v]. *)
Fixpoint weight (v : json) : nat :=
  match v with
  | JArr l => S (fold_right (fun x n => S (weight x + n)) 0 l)
  | JObj d => S (fold_right (fun kv n => S (weight (snd kv) + n)) 0 d)
  | _ => 1
  end.

(** *** What the round trip is stated with *)

Definition is_digit (c : ascii) : bool :=
  match digit_value c with Some _ => true | None => false end.

(** A text that starts a value: no white space, no closing bracket. *)
Definition opens (s : string) : bool :=
  match s with
  | String c _ => negb (is_space c) && negb (Ascii.eqb "]" c)
  | EmptyString => false
  end.

(** One unfolding of [parse_chars], with the recursive calls left open. *)
Definition chars_step (again : string -> option (string * string))
    (s : string) : option (string * string) :=
  match s with
  | EmptyString => None
  | String c rest =>
      let n := nat_of_ascii c in
      if Nat.eqb n 34 then Some ("", rest)
      else if Nat.eqb n 92 then
        match rest with
        | String e rest' =>
            let m := nat_of_ascii e in
            let plain (x : nat) :=
              match again rest' with
              | Some (t, r) => Some (String (ascii_of_nat x) t, r)
              | None => None
              end in
            if Nat.eqb m 34 then plain 34
            else if Nat.eqb m 92 then plain 92
            else if Nat.eqb m 47 then plain 47
            else if Nat.eqb m 110 then plain 10
            else if Nat.eqb m 114 then plain 13
            else if Nat.eqb m 116 then plain 9
            else if Nat.eqb m 98 then plain 8
            else if Nat.eqb m 102 then plain 12
            else if Nat.eqb m 117 then
              match rest' with
              | String h1 (String h2 (String h3 (String h4 rest''))) =>
                  match hex_value h1, hex_value h2, hex_value h3, hex_value h4 with
                  | Some 0, Some 0, Some a, Some b =>
                      match again rest'' with
                      | Some (t, r) => Some (String (ascii_of_nat (16 * a + b)) t, r)
                      | None => None
                      end
                  | _, _, _, _ => None
                  end
              | _ => None
              end
            else None
        | EmptyString => None
        end
      else if Nat.ltb n 32 then None
      else
        match again rest with
        | Some (t, r) => Some (String c t, r)
        | None => None
        end
  end.

Definition items_weight (l : list json) : nat :=
  fold_right (fun x n => S (weight x + n)) 0 l.

Definition members_weight (d : list (string * json)) : nat :=
  fold_right (fun kv n => S (weight (snd kv) + n)) 0 d.

(** [parse_value] reads [v] back from its text, whatever follows. *)
Definition reads (v : json) : Prop :=
  forall level k fuel,
    weight v <= fuel ->
    starts_with_digit k = false ->
    parse_value fuel (emit level v k) = Some (v, k).

(** The text of [v] is at least as long as the fuel reading it takes. *)
Definition fits (v : json) : Prop :=
  forall level k, weight v + String.length k <= String.length (emit level v k).

End PyJson.

(** ** The vocabulary of the specification *)

(** The fields every task record carries from its creation on. *)
Definition required_fields : list string :=
  [ "id"; "description"; "created_at"; "priority"; "estimated_hours";
    "category"; "subtasks"; "status" ].

Definition has_field (k : string) (t : json) : bool :=
  match field k t with
  | Some _ => true
  | None => false
  end.

(** A freshly created task: every required field present, status pending. *)
Definition well_formed (t : json) : Prop :=
  Forall (fun k => has_field k t = true) required_fields /\
  field "status" t = Some (JStr "pending").

(** [next_id(tasks)]. *)
Definition next_id (ts : list json) : Z := Z.of_nat (List.length ts) + 1.

(** No task of [ts] carries the id [n]. *)
Definition unused_id (n : Z) (ts : list json) : bool :=
  forallb (fun t => negb (matches n t)) ts.

(** The fields a line of the recommendations prompt reads. *)
Definition listable (t : json) : bool :=
  has_field "id" t && has_field "description" t && has_field "priority" t &&
  has_field "status" t.

(** The failures of the specification. *)
Inductive failure : Type :=
| AnalysisUnavailable
| AnalysisMalformed
| TaskNotFound
| StoreUnavailable.

(** How the exceptions of the analysis step read as failures: the provider
    call raising is [AnalysisUnavailable]; a reply that is not JSON
    ([JSONDecodeError]), lacks a key ([KeyError]) or is no JSON object
    ([TypeError] on subscripting it) is [AnalysisMalformed]. *)
Definition analysis_failure (e : exn) : option failure :=
  match e with
  | APIError => Some AnalysisUnavailable
  | JSONDecodeError | KeyError _ | TypeError => Some AnalysisMalformed
  | _ => None
  end.

(** The public operations, as the menu loop calls them. *)
Inductive op : Type :=
| Add (description : string)
| Complete (task_id : Z)
| Recommend
| Report.

Section Sessions.

Context {H : Host}.

Definition run_op (b : binding) (o : op) : M string :=
  match o with
  | Add description => add_task b description
  | Complete task_id => complete_task task_id
  | Recommend => get_smart_recommendations b
  | Report => generate_progress_report b
  end.

(** The state after one operation; the loop catches what it raises. *)
Definition step (b : binding) (st : state) (o : op) : state :=
  snd (run_op b o st).

Definition run (b : binding) (ops : list op) (st : state) : state :=
  fold_left (step b) ops st.

(** The states whose collection was built by [add_task] alone, from empty. *)
Inductive built_by_add (b : binding) : state -> Prop :=
| built_empty st : tasks st = JArr [] -> built_by_add b st
| built_add st description :
    built_by_add b st -> built_by_add b (step b st (Add description)).

End Sessions.

(** How many tasks of [ts] carry the id [n]. *)
Definition count_id (n : Z) (ts : list json) : nat :=
  List.length (filter (matches n) ts).

(** The keys the dict literal of [add_task] reads from the analysis. *)
Definition analysis_keys (b : binding) : list string :=
  [ "priority"; estimate_key b; "category"; "potential_subtasks" ].

(** Two analyses that say the same under each binding's own key names. *)
Definition agree (a1 a2 : json) : Prop :=
  field "priority" a1 = field "priority" a2 /\
  field (estimate_key OpenAI) a1 = field (estimate_key Claude) a2 /\
  field "category" a1 = field "category" a2 /\
  field "potential_subtasks" a1 = field "potential_subtasks" a2.

Definition raised {A} (o : outcome A) : bool :=
  match o with
  | Return _ => false
  | Raise _ => true
  end.

Section AddOutcomes.

Context {H : Host}.

(** [res] is the result of an [add_task] that appended one well-formed task
    with an id of its own to the collection [ts], and wrote the collection
    out when the file could be written. *)
Definition appended_one (st : state) (ts : list json)
    (res : outcome string * state) : Prop :=
  exists task,
    tasks (snd res) = JArr (ts ++ [task]) /\
    well_formed task /\
    field "id" task = Some (JInt (next_id ts)) /\
    count_id (next_id ts) (ts ++ [task]) = 1 /\
    (disk st <> Locked ->
     fst res = Return (added_message task) /\
     disk (snd res) = Present (json_dumps (tasks (snd res)))).

(** [res] is the result of an [add_task] that failed in the analysis and
    left the collection, in memory and on disk, as it was. *)
Definition analysis_failed (st : state) (res : outcome string * state) : Prop :=
  exists e,
    fst res = Raise e /\
    (analysis_failure e = Some AnalysisMalformed \/
     analysis_failure e = Some AnalysisUnavailable) /\
    tasks (snd res) = tasks st /\
    task_history (snd res) = task_history st /\
    disk (snd res) = disk st.

(** The reply [text] is not JSON, or is a JSON object without one of the
    keys [add_task] reads. *)
Definition malformed (b : binding) (text : string) : Prop :=
  json_loads text = None \/
  exists d k,
    json_loads text = Some (JObj d) /\
    In k (analysis_keys b) /\
    dict_get k d = None.

End AddOutcomes.

(** The fields [complete_task] has no business with. *)
Definition untouched_fields : list string :=
  [ "id"; "description"; "created_at"; "priority"; "estimated_hours";
    "category"; "subtasks" ].

(** The ids of [ts] are 1, 2, ..., in this order. *)
Definition ids_in_sequence (ts : list json) : Prop :=
  map (field "id") ts
  = map (fun k => Some (JInt (Z.of_nat k))) (seq 1 (List.length ts)).

Section Store.

Context {H : Host}.

(** The content of the backing document: what [load_tasks] reads from it. *)
Definition stored (st : state) : outcome json := fst (load_tasks st).

(** Everything but the outbox. *)
Definition same_but_outbox (st st' : state) : Prop :=
  tasks st' = tasks st /\
  task_history st' = task_history st /\
  disk st' = disk st /\
  ticks st' = ticks st.

End Store.

(** The claim that a completed task's [completed_at] is final, as the
    specification words it: in any state reached from an empty collection,
    no operation changes the [completed_at] of a task that is completed. *)
Definition completed_at_is_final : Prop :=
  forall (H : Host) (b : binding) (st0 : state) (ops : list op) (o : op)
         (ts : list json) (i : nat) (t : json),
    tasks st0 = JArr [] ->
    tasks (run b ops st0) = JArr ts ->
    nth_error ts i = Some t ->
    field "status" t = Some (JStr "completed") ->
    exists ts' t',
      tasks (step b (run b ops st0) o) = JArr ts' /\
      nth_error ts' i = Some t' /\
      field "completed_at" t' = field "completed_at" t.

Module Demo.

Fixpoint repr (v : json) : string :=
  match v with
  | JNull => "None"
  | JBool true => "True"
  | JBool false => "False"
  | JInt n => PyJson.decimal n
  | JStr s => "'" ++ s ++ "'"
  | JArr l => "[" ++ join ", " (map repr l) ++ "]"
  | JObj d =>
      "{" ++ join ", " (map (fun kv => "'" ++ fst kv ++ "': " ++ repr (snd kv)) d)
          ++ "}"
  end.

(** [str(.)]: a string is itself, anything else is shown as [repr] shows it
    (strings inside containers in single quotes, unescaped). *)
Definition str (v : json) : string :=
  match v with
  | JStr s => s
  | _ => repr v
  end.

Definition clock (n : nat) : string :=
  let d := PyJson.decimal_nat n in
  "2025-03-14T09:26:53." ++
  (fix zeros (k : nat) : string :=
     match k with O => d | S j => "0" ++ zeros j end) (6 - String.length d).

Definition analysis_reply (estimate : string) : string :=
  PyJson.dumps
    (JObj [ ("priority", JStr "high");
            (estimate, JInt 2);
            ("category", JStr "writing");
            ("potential_subtasks", JArr [JStr "Outline"; JStr "Draft"]) ]).

(** A provider that answers an analysis prompt with the JSON object its
    binding reads, and any other prompt with a sentence. *)
Definition helpful (n : nat) (r : request) : option string :=
  if String.prefix "Analyze this task" (content r) then
    if String.eqb (model r) "gpt-3.5-turbo"
    then Some (analysis_reply "estimated_time")
    else Some (analysis_reply "estimated_time_to_complete")
  else Some "Start with task 1.".

(** A provider that answers in prose. *)
Definition chatty (n : nat) (r : request) : option string :=
  Some "Sure! Here is my analysis of the task.".

(** A provider that leaves out the list of subtasks. *)
Definition terse (n : nat) (r : request) : option string :=
  Some (PyJson.dumps
          (JObj [ ("priority", JStr "low");
                  ("estimated_time", JInt 1);
                  ("estimated_time_to_complete", JInt 1);
                  ("category", JStr "research") ])).

(** A provider that cannot be reached. *)
Definition offline (n : nat) (r : request) : option string := None.

Definition host_with (p : nat -> request -> option string) : Host :=
  {| json_loads := PyJson.loads;
     json_dumps := PyJson.dumps;
     py_str := str;
     isoformat_now := clock;
     provider := p |}.

Definition host : Host := host_with helpful.

Definition write_spec : json :=
  JObj [ ("id", JInt 1);
         ("description", JStr "Write spec");
         ("created_at", JStr "2025-03-13T18:00:00.000000");
         ("priority", JStr "high");
         ("estimated_hours", JInt 3);
         ("category", JStr "writing");
         ("subtasks", JArr []);
         ("status", JStr "pending") ].

Definition ship_it : json :=
  JObj [ ("id", JInt 2);
         ("description", JStr "Ship it");
         ("created_at", JStr "2025-03-13T18:05:00.000000");
         ("priority", JStr "medium");
         ("estimated_hours", JInt 1);
         ("category", JStr "development");
         ("subtasks", JArr [JStr "Tag"; JStr "Deploy"]);
         ("status", JStr "completed");
         ("completed_at", JStr "2025-03-13T19:00:00.000000") ].

(** A first run: no file, nothing in memory. *)
Definition fresh : state := mkState (JArr []) [] Absent 0 [].

(** A session with two tasks in memory and on disk. *)
Definition busy : state :=
  mkState (JArr [write_spec; ship_it]) []
          (Present (PyJson.dumps (JArr [write_spec; ship_it]))) 0 [].

(** The same session with the file out of reach. *)
Definition stuck : state := mkState (JArr [write_spec; ship_it]) [] Locked 0 [].

(** A session whose file holds no JSON. *)
Definition garbled : state := mkState (JArr []) [] (Present "[1, 2") 0 [].

(** A session that adds a task, completes it, and completes it again. *)
Definition twice : list op := [Add "Write spec"; Complete 1; Complete 1].

(** The task of that session after the first and the second completion. *)
Definition done_at (stamp : string) : json :=
  JObj [ ("id", JInt 1);
         ("description", JStr "Write spec");
         ("created_at", JStr (clock 0));
         ("priority", JStr "high");
         ("estimated_hours", JInt 2);
         ("category", JStr "writing");
         ("subtasks", JArr [JStr "Outline"; JStr "Draft"]);
         ("status", JStr "completed");
         ("completed_at", JStr stamp) ].

(** A session started on a document that holds an object, not an array. *)
Definition odd : state :=
  mkState (JObj [("tasks", JArr [])]) []
          (Present (PyJson.dumps (JObj [("tasks", JArr [])]))) 0 [].

(** A record without a description. *)
Definition nameless : json :=
  JObj [ ("id", JInt 1); ("priority", JStr "low"); ("status", JStr "pending") ].

End Demo.

(** ** Listing the tasks *)

(** The two marks of [display_tasks].  They lie beyond the characters a
    [string] holds one by one and are carried as their UTF-8 bytes; they are
    only ever concatenated and printed. *)
Definition check_mark : string := "✓".
Definition box_mark : string := "□".

Definition no_tasks_found : string := "No tasks found.".

Section Display.

Context {H : Host}.

(** The body of the loop of [display_tasks]. *)
Definition display_line (task : json) : outcome string :=
  match py_getitem task "status" with
  | Raise e => Raise e
  | Return s =>
  let status := if py_eq_str s "completed" then check_mark else box_mark in
  match py_getitem task "id" with
  | Raise e => Raise e
  | Return i =>
  match py_getitem task "description" with
  | Raise e => Raise e
  | Return d =>
  match py_getitem task "priority" with
  | Raise e => Raise e
  | Return p =>
  match py_getitem task "category" with
  | Raise e => Raise e
  | Return c =>
      Return (status ++ " Task " ++ py_str i ++ ": " ++ py_str d ++ " " ++
              "(Priority: " ++ py_str p ++ ", Category: " ++ py_str c ++ ")")
  end end end end end.

Definition display_tasks : M string :=
  st <- get ;;
  if negb (py_truthy (tasks st)) then ret no_tasks_found
  else
    items <- lift (py_iter (tasks st)) ;;
    task_list <- lift (for_each display_line items) ;;
    ret (join nl task_list).

(** [add_task] from the line after the analysis on. *)
Definition finish_add (b : binding) (description : string) (analysis : json)
  : M string :=
  st <- get ;;
  n <- lift (py_len (tasks st)) ;;
  created <- now ;;
  priority <- lift (py_getitem analysis "priority") ;;
  estimate <- lift (py_getitem analysis (estimate_key b)) ;;
  category <- lift (py_getitem analysis "category") ;;
  subtasks <- lift (py_getitem analysis "potential_subtasks") ;;
  let task := new_task n description created priority estimate category
                       subtasks in
  st <- get ;;
  appended <- lift (py_append (tasks st) task) ;;
  set_tasks appended ;;
  save_tasks ;;
  ret ("Added task with AI analysis: " ++ py_str task).

End Display.

(** ** The menu loop

    [main] talks to a terminal: [print] and [input] write to the screen,
    [input] takes the next line the user types and raises [EOFError] when
    there is none.  Besides the exceptions of the agent the loop meets
    [EOFError] and the [ValueError] of [int] and of [main] itself. *)

Inductive event : Type :=
| Printed (text : string)
| Asked (prompt : string).

Inductive pyexn : Type :=
| Agent (e : exn)
| EOFError
| ValueError (message : string).

Inductive result (A : Type) : Type :=
| Ok (a : A)
| Err (x : pyexn).

Arguments Ok {A} a.
Arguments Err {A} x.

Record terminal : Type := mkTerminal {
  agent : state;            (* the AITaskAgent and the world it touches *)
  keyboard : list string;   (* the lines the user is still to type *)
  screen : list event       (* what has been written so far *)
}.

(** What the interpreter adds to the terminal: [exn_text e] is [str(e)] for
    an exception of the agent; [int_error s] is the message of the
    [ValueError] that [int(s)] raises; [int_accepts s] tells whether [int]
    converts a string of ASCII digits this long (CPython from 3.11 on
    refuses more than 4300 digits, earlier versions refuse none). *)
Class Console : Type := {
  exn_text : exn -> string;
  int_error : string -> string;
  int_accepts : string -> bool
}.

(** How the loop ended. [Unfinished] is the loop cut short by its fuel. *)
Inductive ending : Type := Quit | Unfinished.

Definition T (A : Type) : Type := terminal -> result A * terminal.

Definition tret {A} (a : A) : T A := fun t => (Ok a, t).

Definition traise {A} (x : pyexn) : T A := fun t => (Err x, t).

Definition tbind {A B} (c : T A) (k : A -> T B) : T B :=
  fun t =>
    match c t with
    | (Ok a, t') => k a t'
    | (Err x, t') => (Err x, t')
    end.

(** [try: c  except Exception as e: h e]. *)
Definition try_all {A} (c : T A) (h : pyexn -> T A) : T A :=
  fun t =>
    match c t with
    | (Ok a, t') => (Ok a, t')
    | (Err x, t') => h x t'
    end.

Declare Scope terminal_scope.
Delimit Scope terminal_scope with terminal.
Notation "x <- c ;; k" := (tbind c (fun x => k))
  (at level 61, c at next level, right associativity) : terminal_scope.
Notation "c ;; k" := (tbind c (fun _ => k))
  (at level 61, right associativity) : terminal_scope.

Definition print (text : string) : T unit :=
  fun t => (Ok tt,
            mkTerminal (agent t) (keyboard t) (screen t ++ [Printed text])).

Definition input (prompt : string) : T string :=
  fun t =>
    let shown := (screen t ++ [Asked prompt])%list in
    match keyboard t with
    | [] => (Err EOFError, mkTerminal (agent t) [] shown)
    | line :: rest => (Ok line, mkTerminal (agent t) rest shown)
    end.

(** A method of the agent, called from the loop. *)
Definition call {A} (m : M A) : T A :=
  fun t =>
    match m (agent t) with
    | (Return a, st') => (Ok a, mkTerminal st' (keyboard t) (screen t))
    | (Raise e, st') => (Err (Agent e), mkTerminal st' (keyboard t) (screen t))
    end.

(** [c.isdigit()] and [c.isdecimal()] for a character below 256: the ten
    ASCII digits are both; the superscripts one, two and three are digits
    but not decimal. *)
Definition is_decimal_char (c : ascii) : bool :=
  let n := nat_of_ascii c in andb (Nat.leb 48 n) (Nat.leb n 57).

Definition is_digit_char (c : ascii) : bool :=
  let n := nat_of_ascii c in
  is_decimal_char c || Nat.eqb n 178 || Nat.eqb n 179 || Nat.eqb n 185.

Fixpoint all_chars (p : ascii -> bool) (s : string) : bool :=
  match s with
  | EmptyString => true
  | String c rest => p c && all_chars p rest
  end.

(** [s.isdigit()]. *)
Definition py_isdigit (s : string) : bool :=
  negb (String.eqb s "") && all_chars is_digit_char s.

Fixpoint digits_value (acc : Z) (s : string) : Z :=
  match s with
  | EmptyString => acc
  | String c rest =>
      digits_value (10 * acc + Z.of_nat (nat_of_ascii c - 48)) rest
  end.

Section Menu.

Context {H : Host} {C : Console}.

Local Open Scope terminal_scope.

(** [int(s)] for a string [s] that passed [isdigit]. *)
Definition py_int (s : string) : T Z :=
  if all_chars is_decimal_char s && int_accepts s
  then tret (digits_value 0 s)
  else traise (ValueError (int_error s)).

(** [str(e)]. *)
Definition describe (x : pyexn) : string :=
  match x with
  | Agent e => exn_text e
  | EOFError => "EOF when reading a line"
  | ValueError message => message
  end.

Definition display_menu : T string :=
  print (nl ++ "=== AI Task Manager ===") ;;
  print "1. Add new task" ;;
  print "2. View all tasks" ;;
  print "3. Get AI recommendations" ;;
  print "4. Generate progress report" ;;
  print "5. Mark task as complete" ;;
  print "6. Exit" ;;
  input "Choose an option (1-6): ".

(** [agent.add_task(description)] as the terminal sees it: the OpenAI
    binding prints the analysis before it builds the task. *)
Definition add_task_shown (b : binding) (description : string) : T string :=
  analysis <- call (analyze_task_description b description) ;;
  match b with
  | OpenAI => print "analysis: " ;; print (py_str analysis)
  | Claude => tret tt
  end ;;
  call (finish_add b description analysis).

Definition press_enter : T unit :=
  input (nl ++ "Press Enter to continue...") ;; tret tt.

(** The branches on [choice]; [true] stands for [break]. *)
Definition turn (b : binding) (choice : string) : T bool :=
  if String.eqb choice "1" then
    task_description <- input (nl ++ "Enter task description: ") ;;
    result <- add_task_shown b task_description ;;
    print (nl ++ "Task added with AI analysis:") ;;
    print result ;;
    tret false
  else if String.eqb choice "2" then
    print (nl ++ "Current Tasks:") ;;
    listing <- call display_tasks ;;
    print listing ;;
    tret false
  else if String.eqb choice "3" then
    print (nl ++ "Getting AI Recommendations...") ;;
    recommendations <- call (get_smart_recommendations b) ;;
    print recommendations ;;
    tret false
  else if String.eqb choice "4" then
    print (nl ++ "Generating Progress Report...") ;;
    report <- call (generate_progress_report b) ;;
    print report ;;
    tret false
  else if String.eqb choice "5" then
    print (nl ++ "Current Tasks:") ;;
    listing <- call display_tasks ;;
    print listing ;;
    task_id <- input "Enter task ID to mark as complete: " ;;
    (if py_isdigit task_id then
       n <- py_int task_id ;;
       result <- call (complete_task n) ;;
       print result
     else print "Please enter a valid task ID") ;;
    tret false
  else if String.eqb choice "6" then
    print "Thank you for using AI Task Manager!" ;;
    tret true
  else
    print "Invalid choice. Please try again." ;;
    tret false.

(** The [try] statement of the loop; [true] stands for [break]. *)
Definition guarded_turn (b : binding) (choice : string) : T bool :=
  try_all
    (stop <- turn b choice ;;
     if stop then tret true else press_enter ;; tret false)
    (fun e =>
       print ("An error occurred: " ++ describe e) ;;
       press_enter ;;
       tret false).

(** [while True], unrolled [fuel] times. *)
Fixpoint main_loop (b : binding) (fuel : nat) : T ending :=
  match fuel with
  | O => tret Unfinished
  | S f =>
      choice <- display_menu ;;
      stop <- guarded_turn b choice ;;
      if stop then tret Quit else main_loop b f
  end.

Definition no_key_message (b : binding) : string :=
  match b with
  | OpenAI => "No API key found!!"
  | Claude =>
      "No API key found. Make sure ANTHROPIC_API_KEY is set in your .env file"
  end.

(** [main()], given what [os.getenv] returns for the binding's key after
    [load_dotenv()].  Every turn of the loop takes a line from the
    keyboard, so one more turn than there are lines is all it can make. *)
Definition main (b : binding) (api_key : option string) : T ending :=
  match api_key with
  | None => traise (ValueError (no_key_message b))
  | Some key =>
      if String.eqb key "" then traise (ValueError (no_key_message b))
      else
        call init ;;
        fun t => main_loop b (S (List.length (keyboard t))) t
  end.

End Menu.

(** ** More vocabulary *)

(** The status of [t] is the string [s]. *)
Definition status_is (s : string) (t : json) : bool :=
  match field "status" t with
  | Some v => py_eq_str v s
  | None => false
  end.

(** The fields a line of [display_tasks] reads. *)
Definition displayable (t : json) : bool :=
  has_field "status" t && has_field "id" t && has_field "description" t &&
  has_field "priority" t && has_field "category" t.

(** The mark [display_tasks] puts in front of [t]. *)
Definition mark_of (t : json) : string :=
  if status_is "completed" t then check_mark else box_mark.

(** What subscripting a record that is no dict or lacks the key raises. *)
Definition lookup_error (e : exn) : Prop :=
  e = TypeError \/ exists k, e = KeyError k.

Definition is_list (v : json) : bool :=
  match v with
  | JArr _ => true
  | _ => false
  end.

Section Sync.

Context {H : Host}.

(** The backing document holds the collection that is in memory. *)
Definition in_sync (st : state) : Prop :=
  disk st = Present (json_dumps (tasks st)).

End Sync.

(** ** A concrete console *)

Module DemoConsole.

Definition text_of (e : exn) : string :=
  match e with
  | FileNotFoundError => "[Errno 2] No such file or directory: 'tasks.json'"
  | PermissionError => "[Errno 13] Permission denied: 'tasks.json'"
  | JSONDecodeError => "Expecting value: line 1 column 1 (char 0)"
  | KeyError k => "'" ++ k ++ "'"
  | TypeError => "string indices must be integers"
  | AttributeError => "'dict' object has no attribute 'append'"
  | APIError => "Connection error."
  end.

Definition int_message (s : string) : string :=
  "invalid literal for int() with base 10: '" ++ s ++ "'".

Definition console : Console :=
  {| exn_text := text_of;
     int_error := int_message;
     int_accepts := fun s => Nat.leb (String.length s) 4300 |}.

(** The superscript two: a digit for [isdigit], no digit for [int]. *)
Definition squared : string := String (ascii_of_nat 178) EmptyString.

(** A user who completes task 1, mistypes twice, and leaves. *)
Definition visit : terminal :=
  mkTerminal Demo.busy
    ["5"; "1"; ""; "5"; "one"; ""; "5"; squared; ""; "9"; ""; "6"; "unread"]
    [].

(** A user who walks away in the middle of adding a task. *)
Definition walk_away : terminal := mkTerminal Demo.busy ["1"] [].

End DemoConsole.

Section Tame.

Context {H : Host} {C : Console}.

(** What every computation of the loop keeps to: the agent moves only by
    operations of [run], and no line comes back to the keyboard. *)
Definition tame {A} (b : binding) (c : T A) : Prop :=
  forall t,
    (exists ops, agent (snd (c t)) = run b ops (agent t)) /\
    List.length (keyboard (snd (c t))) <= List.length (keyboard t).

(** What the menu writes before it asks. *)
Definition menu_events : list event :=
  [ Printed (nl ++ "=== AI Task Manager ===");
    Printed "1. Add new task";
    Printed "2. View all tasks";
    Printed "3. Get AI recommendations";
    Printed "4. Generate progress report";
    Printed "5. Mark task as complete";
    Printed "6. Exit";
    Asked "Choose an option (1-6): " ].

End Tame.

(** ** Facts about dicts and lists *)

Lemma dict_get_set_same k v d : dict_get k (dict_set k v d) = Some v.
Proof.
  induction d as [|[k' v'] d IH]; simpl.
  - now rewrite String.eqb_refl.
  - destruct (String.eqb k k') eqn:E; simpl; rewrite E; auto.
Qed.

Lemma dict_get_set_other k k' v d :
  k <> k' -> dict_get k (dict_set k' v d) = dict_get k d.
Proof.
  intros Hne. induction d as [|[k0 v0] d IH]; simpl.
  - destruct (String.eqb k k') eqn:E; auto.
    apply String.eqb_eq in E. contradiction.
  - destruct (String.eqb k' k0) eqn:E; simpl.
    + apply String.eqb_eq in E. subst k0.
      destruct (String.eqb k k') eqn:E'; auto.
      apply String.eqb_eq in E'. contradiction.
    + destruct (String.eqb k k0); auto.
Qed.

Lemma nth_error_middle (pre : list json) t post :
  nth_error (pre ++ t :: post) (List.length pre) = Some t.
Proof. induction pre; simpl; auto. Qed.

Lemma list_set_middle (pre : list json) t x post :
  list_set (List.length pre) x (pre ++ t :: post) = (pre ++ x :: post)%list.
Proof. induction pre; simpl; congruence. Qed.

Lemma matches_dict task_id t :
  matches task_id t = true ->
  exists d v, t = JObj d /\ dict_get "id" d = Some v /\ py_eq_int v task_id = true.
Proof.
  unfold matches, py_getitem. destruct t; try discriminate.
  destruct (dict_get "id" fields) eqn:E; try discriminate. eauto.
Qed.

Lemma skips_not_matches task_id t : skips task_id t = true -> matches task_id t = false.
Proof.
  unfold skips, matches. destruct (py_getitem t "id"); auto.
  now destruct (py_eq_int a task_id).
Qed.

Lemma first_non_skipped task_id (ts : list json) :
  forallb (skips task_id) ts = true \/
  exists pre t post,
    ts = (pre ++ t :: post)%list /\
    forallb (skips task_id) pre = true /\
    skips task_id t = false.
Proof.
  induction ts as [|t ts IH]; [now left|].
  destruct (skips task_id t) eqn:E.
  - destruct IH as [IH | (pre & t' & post & -> & Hpre & Ht)].
    + left. simpl. now rewrite E.
    + right. exists (t :: pre), t', post. simpl. now rewrite E.
  - right. now exists [], t, ts.
Qed.

(** ** What [complete_task] does *)

Section Completion.

Context {H : Host}.

Lemma complete_scan_skip task_id i t rest st :
  skips task_id t = true ->
  complete_scan task_id i (t :: rest) st = complete_scan task_id (S i) rest st.
Proof.
  unfold skips. intros Hs. simpl. unfold bind, lift.
  destruct (py_getitem t "id") as [v|e]; [|discriminate].
  now destruct (py_eq_int v task_id).
Qed.

Lemma complete_scan_fault task_id i t rest e st :
  py_getitem t "id" = Raise e ->
  complete_scan task_id i (t :: rest) st = (Raise e, st).
Proof. intros He. simpl. unfold bind, lift. now rewrite He. Qed.

Lemma complete_scan_hit task_id st pre d post rest :
  tasks st = JArr (pre ++ JObj d :: post) ->
  matches task_id (JObj d) = true ->
  complete_scan task_id (List.length pre) (JObj d :: rest) st
  = (completed_result st d, completed_state st pre d post task_id).
Proof.
  intros Hts Hm. unfold matches in Hm.
  destruct st as [ts hist dk tk out]. simpl in Hts. subst ts.
  cbn [complete_scan]. unfold bind at 1. unfold lift at 1.
  destruct (py_getitem (JObj d) "id") as [v|e]; [|discriminate].
  rewrite Hm.
  unfold completed_result, completed_state, update_task, task_at, save_tasks,
    write_file, log_history, set_tasks, now, bind, lift, get, ret, raise.
  cbn [tasks task_history disk ticks outbox].
  rewrite nth_error_middle. simpl.
  rewrite list_set_middle, nth_error_middle. simpl.
  rewrite list_set_middle.
  fold (mark_completed (isoformat_now tk) d).
  destruct dk; simpl; try reflexivity.
  - rewrite nth_error_middle.
    fold (mark_completed (isoformat_now tk) d). unfold py_getitem.
    now destruct (dict_get "description" (mark_completed (isoformat_now tk) d)).
  - rewrite nth_error_middle.
    fold (mark_completed (isoformat_now tk) d). unfold py_getitem.
    now destruct (dict_get "description" (mark_completed (isoformat_now tk) d)).
Qed.

Lemma complete_scan_miss task_id items : forall i st,
  forallb (skips task_id) items = true ->
  complete_scan task_id i items st = (Return not_found_message, st).
Proof.
  induction items as [|t items IH]; intros i st Hall; [reflexivity|].
  simpl in Hall. apply andb_prop in Hall as [Ht Hrest].
  rewrite complete_scan_skip by exact Ht. now apply IH.
Qed.

Lemma complete_scan_prefix task_id mid : forall pre rest st,
  forallb (skips task_id) mid = true ->
  complete_scan task_id (List.length pre) (mid ++ rest) st
  = complete_scan task_id (List.length (pre ++ mid)) rest st.
Proof.
  induction mid as [|m mid IH]; intros pre rest st Hall.
  - now rewrite app_nil_r.
  - simpl in Hall. apply andb_prop in Hall as [Hm Hmid].
    cbn [app]. rewrite complete_scan_skip by exact Hm.
    replace (S (List.length pre)) with (List.length (pre ++ [m]))
      by (rewrite length_app; simpl; lia).
    rewrite IH by exact Hmid. now rewrite <- app_assoc.
Qed.

Lemma complete_task_hit task_id st pre d post :
  tasks st = JArr (pre ++ JObj d :: post) ->
  forallb (skips task_id) pre = true ->
  matches task_id (JObj d) = true ->
  complete_task task_id st
  = (completed_result st d, completed_state st pre d post task_id).
Proof.
  intros Hts Hpre Hm.
  unfold complete_task, bind, get, lift. rewrite Hts. cbn [py_iter].
  change 0 with (List.length (@nil json)).
  rewrite (complete_scan_prefix task_id pre [] _ st Hpre).
  rewrite app_nil_l. now apply complete_scan_hit.
Qed.

Lemma complete_task_miss task_id st ts :
  tasks st = JArr ts ->
  forallb (skips task_id) ts = true ->
  complete_task task_id st = (Return not_found_message, st).
Proof.
  intros Hts Hall. unfold complete_task, bind, get, lift. rewrite Hts.
  cbn [py_iter]. now apply complete_scan_miss.
Qed.

(** The three ways a call of [complete_task] on a list can go: every item is
    passed over; an item before any match cannot be asked for its id; or
    the first match is marked. *)
Lemma complete_task_cases task_id st ts :
  tasks st = JArr ts ->
  (forallb (skips task_id) ts = true /\
   complete_task task_id st = (Return not_found_message, st))
  \/
  (exists pre t post e,
     ts = (pre ++ t :: post)%list /\
     forallb (skips task_id) pre = true /\
     py_getitem t "id" = Raise e /\
     complete_task task_id st = (Raise e, st))
  \/
  (exists pre d post,
     ts = (pre ++ JObj d :: post)%list /\
     forallb (skips task_id) pre = true /\
     matches task_id (JObj d) = true /\
     complete_task task_id st
     = (completed_result st d, completed_state st pre d post task_id)).
Proof.
  intros Hts.
  assert (Hrun : complete_task task_id st = complete_scan task_id 0 ts st).
  { unfold complete_task, bind, get, lift. now rewrite Hts. }
  rewrite Hrun.
  destruct (first_non_skipped task_id ts)
    as [Hall | (pre & t & post & -> & Hpre & Ht)].
  - left. split; [exact Hall|]. now apply complete_scan_miss.
  - right.
    change 0 with (List.length (@nil json)).
    rewrite (complete_scan_prefix task_id pre [] (t :: post) st Hpre).
    rewrite app_nil_l.
    unfold skips in Ht.
    destruct (py_getitem t "id") as [v|e] eqn:Eid.
    + right.
      assert (Hm : matches task_id t = true).
      { unfold matches. rewrite Eid. now destruct (py_eq_int v task_id). }
      destruct (matches_dict _ _ Hm) as (d & v' & -> & _ & _).
      exists pre, d, post. repeat split; auto.
      now apply complete_scan_hit.
    + left. exists pre, t, post, e. repeat split; auto.
      now apply complete_scan_fault.
Qed.

End Completion.


Lemma mark_completed_status stamp d :
  dict_get "status" (mark_completed stamp d) = Some (JStr "completed").
Proof.
  unfold mark_completed.
  rewrite dict_get_set_other by discriminate. apply dict_get_set_same.
Qed.

Lemma mark_completed_stamp stamp d :
  dict_get "completed_at" (mark_completed stamp d) = Some (JStr stamp).
Proof. unfold mark_completed. apply dict_get_set_same. Qed.

Lemma mark_completed_other stamp d k :
  k <> "status" -> k <> "completed_at" ->
  dict_get k (mark_completed stamp d) = dict_get k d.
Proof.
  intros Hs Hc. unfold mark_completed.
  now rewrite !dict_get_set_other by assumption.
Qed.

(** On a dict whose status is already completed, only [completed_at] moves. *)
Lemma mark_completed_again stamp d k :
  dict_get "status" d = Some (JStr "completed") ->
  k <> "completed_at" ->
  dict_get k (mark_completed stamp d) = dict_get k d.
Proof.
  intros Hdone Hc. destruct (String.eqb k "status") eqn:E.
  - apply String.eqb_eq in E. subst k. now rewrite mark_completed_status.
  - apply String.eqb_neq in E. now apply mark_completed_other.
Qed.

Lemma nth_error_beside (pre : list json) x y post i :
  i <> List.length pre ->
  nth_error (pre ++ x :: post) i = nth_error (pre ++ y :: post) i.
Proof.
  revert i. induction pre as [|p pre IH]; intros [|i] Hne; simpl in *;
    try reflexivity; try contradiction.
  apply IH. congruence.
Qed.
(** ** What [add_task] and the two reports do *)

Section Pipeline.

Context {H : Host}.

Lemma create_message_run b prompt st :
  create_message b prompt st
  = (match provider (List.length (outbox st)) (request_of b prompt) with
     | Some text => Return text
     | None => Raise APIError
     end, sent (request_of b prompt) st).
Proof.
  unfold create_message, request_of, sent.
  now destruct (provider _ _).
Qed.

Lemma add_task_run b description st :
  add_task b description st
  = let r := request_of b (analysis_prompt description) in
    match provider (List.length (outbox st)) r with
    | None => (Raise APIError, sent r st)
    | Some text =>
    match json_loads text with
    | None => (Raise JSONDecodeError, sent r st)
    | Some analysis =>
    match py_len (tasks st) with
    | Raise e => (Raise e, sent r st)
    | Return n =>
    match assemble b n description (isoformat_now (ticks st)) analysis with
    | Raise e => (Raise e, ticked (sent r st))
    | Return task =>
    match py_append (tasks st) task with
    | Raise e => (Raise e, ticked (sent r st))
    | Return appended =>
    match disk st with
    | Locked =>
        (Raise PermissionError,
         mkState appended (task_history st) Locked (S (ticks st))
                 (outbox st ++ [r]))
    | _ =>
        (Return (added_message task),
         mkState appended (task_history st) (Present (json_dumps appended))
                 (S (ticks st)) (outbox st ++ [r]))
    end end end end end end.
Proof.
  cbv zeta.
  unfold add_task, analyze_task_description. unfold bind at 1. unfold bind at 1.
  rewrite create_message_run.
  destruct (provider _ _) as [text|]; [|reflexivity].
  unfold lift at 1, loads.
  destruct (json_loads text) as [analysis|]; [|reflexivity].
  unfold bind, get, lift, now, set_tasks, save_tasks, write_file, ret, sent,
    ticked, assemble.
  cbn [tasks task_history disk ticks outbox].
  destruct (py_len (tasks st)) as [n|e]; [|reflexivity].
  destruct (py_getitem analysis "priority") as [p|e]; [|reflexivity].
  destruct (py_getitem analysis (estimate_key b)) as [est|e]; [|reflexivity].
  destruct (py_getitem analysis "category") as [c|e]; [|reflexivity].
  destruct (py_getitem analysis "potential_subtasks") as [sub|e]; [|reflexivity].
  destruct (py_append (tasks st) _) as [appended|e]; [|reflexivity].
  now destruct (disk st).
Qed.

Lemma get_smart_recommendations_run b st :
  get_smart_recommendations b st
  = if negb (py_truthy (tasks st)) then (Return no_tasks_message, st)
    else
      match py_iter (tasks st) with
      | Raise e => (Raise e, st)
      | Return items =>
      match for_each task_line items with
      | Raise e => (Raise e, st)
      | Return lines =>
          create_message b (recommendations_prompt (join nl lines)) st
      end end.
Proof.
  unfold get_smart_recommendations, bind, get, lift, ret.
  destruct (negb (py_truthy (tasks st))); [reflexivity|].
  destruct (py_iter (tasks st)) as [items|e]; [|reflexivity].
  now destruct (for_each task_line items).
Qed.

Lemma generate_progress_report_run b st :
  generate_progress_report b st
  = match py_iter (tasks st) with
    | Raise e => (Raise e, st)
    | Return items =>
    match select (has_status "completed") items with
    | Raise e => (Raise e, st)
    | Return completed =>
    match select (has_status "pending") items with
    | Raise e => (Raise e, st)
    | Return pending =>
        create_message b
          (report_prompt (report_context completed pending (tasks st))) st
    end end end.
Proof.
  unfold generate_progress_report, bind, get, lift.
  destruct (py_iter (tasks st)) as [items|e]; [|reflexivity].
  destruct (select (has_status "completed") items); [|reflexivity].
  now destruct (select (has_status "pending") items).
Qed.

Lemma load_tasks_run st :
  load_tasks st
  = match disk st with
    | Absent => (Return (JArr []), st)
    | Locked => (Raise PermissionError, st)
    | Present text => (loads text, st)
    end.
Proof.
  unfold load_tasks, try_except, bind, read_file, lift, ret.
  destruct (disk st) as [| |text]; try reflexivity.
  unfold loads. now destruct (json_loads text).
Qed.

Lemma save_tasks_run st :
  save_tasks st
  = match disk st with
    | Locked => (Raise PermissionError, st)
    | _ => (Return tt,
            mkState (tasks st) (task_history st)
                    (Present (json_dumps (tasks st))) (ticks st) (outbox st))
    end.
Proof. unfold save_tasks, bind, get, write_file. now destruct (disk st). Qed.

Lemma save_then_load st :
  disk st <> Locked ->
  json_loads (json_dumps (tasks st)) = Some (tasks st) ->
  save_tasks st = (Return tt, written st) /\
  load_tasks (written st) = (Return (tasks st), written st).
Proof.
  intros Hdisk Hcodec. rewrite save_tasks_run, load_tasks_run. split.
  - destruct (disk st); try reflexivity. now contradiction Hdisk.
  - unfold loads, written. cbn [disk tasks]. now rewrite Hcodec.
Qed.

Lemma init_run st :
  init st
  = match load_tasks st with
    | (Return loaded, _) =>
        (Return tt, mkState loaded [] (disk st) (ticks st) (outbox st))
    | (Raise e, _) => (Raise e, st)
    end.
Proof.
  unfold init, bind. rewrite load_tasks_run.
  now destruct st as [ts hist [| |text] tk out].
Qed.

End Pipeline.


Section Listing.

Context {H : Host}.

Lemma has_field_getitem k t :
  has_field k t = true -> exists v, py_getitem t k = Return v.
Proof.
  unfold has_field, field, py_getitem. destruct t; try discriminate.
  destruct (dict_get k fields); [eauto | discriminate].
Qed.

Lemma task_line_listable t :
  listable t = true -> exists line, task_line t = Return line.
Proof.
  unfold listable. intros Hl.
  apply andb_prop in Hl as [Hl Hs]. apply andb_prop in Hl as [Hl Hp].
  apply andb_prop in Hl as [Hi Hd].
  destruct (has_field_getitem _ _ Hi) as [i Ei].
  destruct (has_field_getitem _ _ Hd) as [d Ed].
  destruct (has_field_getitem _ _ Hp) as [p Ep].
  destruct (has_field_getitem _ _ Hs) as [s Es].
  unfold task_line. rewrite Ei, Ed, Ep, Es. eauto.
Qed.

Lemma for_each_task_line ts :
  forallb listable ts = true ->
  exists lines,
    for_each task_line ts = Return lines /\ List.length lines = List.length ts.
Proof.
  induction ts as [|t ts IH]; intros Hall.
  - now exists [].
  - simpl in Hall. apply andb_prop in Hall as [Ht Hts].
    destruct (task_line_listable t Ht) as [line El].
    destruct (IH Hts) as (lines & Els & Hlen).
    exists (line :: lines). simpl. rewrite El, Els. simpl. now rewrite Hlen.
Qed.

End Listing.

Section Adding.

Context {H : Host}.

Lemma py_getitem_raise obj k e :
  py_getitem obj k = Raise e -> analysis_failure e = Some AnalysisMalformed.
Proof.
  unfold py_getitem. destruct obj; try (intros [= <-]; reflexivity).
  destruct (dict_get k fields); [discriminate | now intros [= <-]].
Qed.

Lemma py_getitem_field obj k v : py_getitem obj k = Return v -> field k obj = Some v.
Proof.
  unfold py_getitem, field. destruct obj; try discriminate.
  destruct (dict_get k fields); [now intros [= ->] | discriminate].
Qed.

Lemma py_getitem_missing d k :
  dict_get k d = None -> py_getitem (JObj d) k = Raise (KeyError k).
Proof. unfold py_getitem. now intros ->. Qed.

Lemma assemble_raise b n description created analysis e :
  assemble b n description created analysis = Raise e ->
  analysis_failure e = Some AnalysisMalformed.
Proof.
  unfold assemble.
  destruct (py_getitem analysis "priority") eqn:E1;
    [|intros [= <-]; eauto using py_getitem_raise].
  destruct (py_getitem analysis (estimate_key b)) eqn:E2;
    [|intros [= <-]; eauto using py_getitem_raise].
  destruct (py_getitem analysis "category") eqn:E3;
    [|intros [= <-]; eauto using py_getitem_raise].
  destruct (py_getitem analysis "potential_subtasks") eqn:E4;
    [discriminate | intros [= <-]; eauto using py_getitem_raise].
Qed.

Lemma assemble_return b n description created analysis task :
  assemble b n description created analysis = Return task ->
  exists priority estimate category subtasks,
    task = new_task n description created priority estimate category subtasks /\
    field "priority" analysis = Some priority /\
    field (estimate_key b) analysis = Some estimate /\
    field "category" analysis = Some category /\
    field "potential_subtasks" analysis = Some subtasks.
Proof.
  unfold assemble.
  destruct (py_getitem analysis "priority") as [p|] eqn:E1; [|discriminate].
  destruct (py_getitem analysis (estimate_key b)) as [est|] eqn:E2; [|discriminate].
  destruct (py_getitem analysis "category") as [c|] eqn:E3; [|discriminate].
  destruct (py_getitem analysis "potential_subtasks") as [s|] eqn:E4; [|discriminate].
  intros [= <-]. exists p, est, c, s.
  repeat split; auto using py_getitem_field.
Qed.

Lemma assemble_missing b n description created d k :
  In k (analysis_keys b) -> dict_get k d = None ->
  exists k', assemble b n description created (JObj d) = Raise (KeyError k').
Proof.
  intros Hin Hnone. unfold assemble.
  destruct (py_getitem (JObj d) "priority") eqn:E1.
  2:{ unfold py_getitem in E1. destruct (dict_get "priority" d); [discriminate|].
      injection E1 as <-. eauto. }
  destruct (py_getitem (JObj d) (estimate_key b)) eqn:E2.
  2:{ unfold py_getitem in E2. destruct (dict_get (estimate_key b) d); [discriminate|].
      injection E2 as <-. eauto. }
  destruct (py_getitem (JObj d) "category") eqn:E3.
  2:{ unfold py_getitem in E3. destruct (dict_get "category" d); [discriminate|].
      injection E3 as <-. eauto. }
  destruct (py_getitem (JObj d) "potential_subtasks") eqn:E4.
  2:{ unfold py_getitem in E4.
      destruct (dict_get "potential_subtasks" d); [discriminate|].
      injection E4 as <-. eauto. }
  exfalso. unfold analysis_keys in Hin. simpl in Hin.
  destruct Hin as [<-|[<-|[<-|[<-|[]]]]];
    rewrite (py_getitem_missing _ _ Hnone) in *; discriminate.
Qed.

Lemma new_task_well_formed n description created p e c s :
  well_formed (new_task n description created p e c s).
Proof. split; [repeat constructor | reflexivity]. Qed.

Lemma new_task_matches n description created p e c s :
  matches (Z.of_nat n + 1) (new_task n description created p e c s) = true.
Proof. unfold matches. simpl. apply Z.eqb_refl. Qed.

Lemma count_id_unused n ts : unused_id n ts = true -> count_id n ts = 0.
Proof.
  unfold unused_id, count_id. induction ts as [|t ts IH]; simpl; auto.
  intros Hall. apply andb_prop in Hall as [Ht Hts].
  destruct (matches n t); [discriminate | auto].
Qed.

Lemma count_id_app n ts us : count_id n (ts ++ us) = count_id n ts + count_id n us.
Proof. unfold count_id. now rewrite filter_app, length_app. Qed.

End Adding.

Section ReadOnly.

Context {H : Host}.

Lemma create_message_state b prompt st :
  same_but_outbox st (snd (create_message b prompt st)) /\
  outbox (snd (create_message b prompt st))
  = (outbox st ++ [request_of b prompt])%list.
Proof. rewrite create_message_run. now repeat split. Qed.

(** Both reports leave everything but the outbox alone. *)
Lemma insights_state b st :
  tasks (snd (get_smart_recommendations b st)) = tasks st /\
  tasks (snd (generate_progress_report b st)) = tasks st.
Proof.
  rewrite get_smart_recommendations_run, generate_progress_report_run. split.
  - destruct (negb (py_truthy (tasks st))); [reflexivity|].
    destruct (py_iter (tasks st)) as [items|e]; [|reflexivity].
    destruct (for_each task_line items); [|reflexivity].
    apply create_message_state.
  - destruct (py_iter (tasks st)) as [items|e]; [|reflexivity].
    destruct (select (has_status "completed") items); [|reflexivity].
    destruct (select (has_status "pending") items); [|reflexivity].
    apply create_message_state.
Qed.

End ReadOnly.

(** ** What one operation does to the collection *)

Section Steps.

Context {H : Host}.

(** An operation leaves the list as it is, appends a task to it, or marks
    the first task carrying the id it was asked to complete. *)
Lemma step_shape b st o ts :
  tasks st = JArr ts ->
  tasks (step b st o) = JArr ts
  \/ (exists description task,
        o = Add description /\
        field "id" task = Some (JInt (next_id ts)) /\
        tasks (step b st o) = JArr (ts ++ [task]))
  \/ (exists n pre d post,
        o = Complete n /\
        ts = (pre ++ JObj d :: post)%list /\
        forallb (skips n) pre = true /\
        matches n (JObj d) = true /\
        tasks (step b st o)
        = JArr (pre ++ JObj (mark_completed (isoformat_now (ticks st)) d) :: post)).
Proof.
  intros Hts. unfold step. destruct o as [description|n| |]; cbn [run_op].
  - rewrite add_task_run. cbv zeta. rewrite Hts. cbn [py_len py_append].
    destruct (provider _ _) as [text|]; [|now left].
    destruct (json_loads text) as [analysis|]; [|now left].
    destruct (assemble _ _ _ _ _) as [task|e] eqn:Ea; [|now left].
    right. left. exists description, task.
    destruct (assemble_return _ _ _ _ _ _ Ea) as (p & est & c & s & -> & _).
    now destruct (disk st).
  - destruct (complete_task_cases n st ts Hts)
      as [[_ ->] | [(pre & t & post & e & _ & _ & _ & ->)
                   | (pre & d & post & -> & Hpre & Hm & ->)]];
      [now left | now left |].
    right. right. now exists n, pre, d, post.
  - left. rewrite <- Hts. apply (insights_state b st).
  - left. rewrite <- Hts. apply (insights_state b st).
Qed.

End Steps.

(** ** Ids handed out by [add_task] *)

Lemma matches_int_id n t m :
  field "id" t = Some (JInt m) -> matches n t = Z.eqb m n.
Proof.
  unfold field, matches, py_getitem. destruct t; try discriminate.
  now intros ->.
Qed.

Lemma ids_in_sequence_snoc ts task :
  ids_in_sequence ts ->
  field "id" task = Some (JInt (next_id ts)) ->
  ids_in_sequence (ts ++ [task]).
Proof.
  unfold ids_in_sequence, next_id. intros Hseq Hid.
  rewrite map_app, length_app, Hseq. cbn [map List.length].
  rewrite Nat.add_1_r, seq_S, map_app. cbn [map]. rewrite Hid.
  do 4 f_equal. lia.
Qed.

(** In such a collection the id [n] is carried by exactly one task when
    [1 <= n <= len], and by none otherwise. *)
Lemma ids_in_sequence_count ts : forall n,
  ids_in_sequence ts ->
  count_id n ts
  = if (Z.leb 1 n && Z.leb n (Z.of_nat (List.length ts)))%bool then 1 else 0.
Proof.
  induction ts as [|t ts IH] using rev_ind; intros n Hseq.
  - simpl. destruct (Z.leb 1 n) eqn:E1; simpl; [|reflexivity].
    destruct (Z.leb n 0) eqn:E2; [lia | reflexivity].
  - unfold ids_in_sequence in Hseq.
    rewrite map_app, length_app in Hseq. cbn [map List.length] in Hseq.
    rewrite Nat.add_1_r, seq_S, map_app in Hseq. cbn [map] in Hseq.
    apply app_inj_tail in Hseq as [Hseq Hid].
    rewrite count_id_app, (IH n Hseq), length_app. cbn [List.length].
    unfold count_id. cbn [filter].
    rewrite (matches_int_id n t _ Hid).
    destruct (Z.eqb_spec (Z.of_nat (1 + List.length ts)) n) as [<-|Hne];
      cbn [List.length].
    + replace (Z.leb (Z.of_nat (1 + List.length ts)) (Z.of_nat (List.length ts)))
        with false by (symmetry; apply Z.leb_gt; lia).
      rewrite andb_false_r.
      replace (Z.leb (Z.of_nat (1 + List.length ts))
                     (Z.of_nat (List.length ts + 1)))
        with true by (symmetry; apply Z.leb_le; lia).
      replace (Z.leb 1 (Z.of_nat (1 + List.length ts)))
        with true by (symmetry; apply Z.leb_le; lia).
      reflexivity.
    + rewrite Nat.add_0_r.
      destruct (Z.leb 1 n) eqn:E1; cbn [andb]; [|reflexivity].
      destruct (Z.leb_spec n (Z.of_nat (List.length ts)));
        destruct (Z.leb_spec n (Z.of_nat (List.length ts + 1)));
        try reflexivity; lia.
Qed.

Lemma unused_id_count n ts : count_id n ts = 0 -> unused_id n ts = true.
Proof.
  unfold unused_id, count_id. induction ts as [|t ts IH]; simpl; auto.
  destruct (matches n t); simpl; [discriminate | auto].
Qed.

Lemma ids_in_sequence_next_unused ts :
  ids_in_sequence ts -> unused_id (next_id ts) ts = true.
Proof.
  intros Hseq. apply unused_id_count.
  rewrite (ids_in_sequence_count ts _ Hseq). unfold next_id.
  replace (Z.leb (Z.of_nat (List.length ts) + 1) (Z.of_nat (List.length ts)))
    with false by (symmetry; apply Z.leb_gt; lia).
  now rewrite andb_false_r.
Qed.

Section Building.

Context {H : Host}.

Lemma built_by_add_in_sequence b st :
  built_by_add b st -> exists ts, tasks st = JArr ts /\ ids_in_sequence ts.
Proof.
  induction 1 as [st Hempty | st description _ (ts & Hts & Hseq)].
  - exists []. now split.
  - destruct (step_shape b st (Add description) ts Hts)
      as [Hsame | [(dsc & task & _ & Hid & Hnew)
                  | (n & pre & d & post & Hop & _)]].
    + exists ts. now split.
    + exists (ts ++ [task])%list. split; [exact Hnew|].
      now apply ids_in_sequence_snoc.
    + discriminate.
Qed.

End Building.

Section Permanence.

Context {H : Host}.

(** One operation on a completed task: it stays where it is and stays
    completed; nothing but [completed_at] can change in it, and even that
    only if the operation completes a task of its id. *)
Lemma step_keeps_completed b st o ts i t :
  tasks st = JArr ts ->
  nth_error ts i = Some t ->
  field "status" t = Some (JStr "completed") ->
  exists ts' t',
    tasks (step b st o) = JArr ts' /\
    nth_error ts' i = Some t' /\
    field "status" t' = Some (JStr "completed") /\
    (forall k, k <> "completed_at" -> field k t' = field k t) /\
    ((forall n, o = Complete n -> matches n t = false) -> t' = t).
Proof.
  intros Hts Hnth Hdone.
  destruct (step_shape b st o ts Hts)
    as [Hsame | [(dsc & task & _ & _ & Hnew)
                | (n & pre & d & post & Hop & Hsplit & Hpre & Hm & Hnew)]].
  - exists ts, t. auto.
  - exists (ts ++ [task])%list, t. repeat split; auto.
    rewrite nth_error_app1; [exact Hnth|].
    apply nth_error_Some. congruence.
  - subst ts. destruct (Nat.eq_dec i (List.length pre)) as [->|Hne].
    + rewrite nth_error_middle in Hnth. injection Hnth as <-.
      exists (pre ++ JObj (mark_completed (isoformat_now (ticks st)) d) :: post)%list,
             (JObj (mark_completed (isoformat_now (ticks st)) d)).
      split; [exact Hnew|]. split; [apply nth_error_middle|].
      split; [apply mark_completed_status|]. split.
      * intros k Hk. now apply mark_completed_again.
      * intros Hno. rewrite (Hno n Hop) in Hm. discriminate.
    + exists (pre ++ JObj (mark_completed (isoformat_now (ticks st)) d) :: post)%list, t.
      split; [exact Hnew|]. split; [|auto].
      rewrite <- Hnth. now apply nth_error_beside.
Qed.

End Permanence.

(** ** The codec reads back what it writes *)

Section JsonInduction.

Variable P : json -> Prop.
Hypothesis P_null : P JNull.
Hypothesis P_bool : forall b, P (JBool b).
Hypothesis P_int : forall n, P (JInt n).
Hypothesis P_str : forall s, P (JStr s).
Hypothesis P_arr : forall l, Forall P l -> P (JArr l).
Hypothesis P_obj : forall d, Forall (fun kv => P (snd kv)) d -> P (JObj d).

Fixpoint json_nested_ind (v : json) : P v :=
  match v with
  | JNull => P_null
  | JBool b => P_bool b
  | JInt n => P_int n
  | JStr s => P_str s
  | JArr l =>
      P_arr l ((fix all (l : list json) : Forall P l :=
                  match l with
                  | [] => Forall_nil _
                  | x :: rest => Forall_cons x (json_nested_ind x) (all rest)
                  end) l)
  | JObj d =>
      P_obj d ((fix all (d : list (string * json))
                  : Forall (fun kv => P (snd kv)) d :=
                  match d with
                  | [] => Forall_nil _
                  | kv :: rest =>
                      Forall_cons kv (json_nested_ind (snd kv)) (all rest)
                  end) d)
  end.

End JsonInduction.

Module PyJsonFacts.

Import PyJson.

(** *** White space *)

Lemma skip_ws_pad n k : skip_ws (pad n k) = skip_ws k.
Proof. induction n; simpl; auto. Qed.

Lemma skip_ws_nl k : skip_ws (nl ++ k) = skip_ws k.
Proof. reflexivity. Qed.

(** *** Strings *)

Lemma parse_chars_step s : parse_chars s = chars_step parse_chars s.
Proof. destruct s; reflexivity. Qed.

Lemma chars_step_escape_char again c t :
  chars_step again (escape_char c ++ t)
  = match again t with
    | Some (x, r) => Some (String c x, r)
    | None => None
    end.
Proof.
  destruct c as [[] [] [] [] [] [] [] []]; lazy; reflexivity.
Qed.

Lemma parse_chars_escape_char c t :
  parse_chars (escape_char c ++ t)
  = match parse_chars t with
    | Some (x, r) => Some (String c x, r)
    | None => None
    end.
Proof. rewrite parse_chars_step. apply chars_step_escape_char. Qed.

Lemma parse_chars_escape s : forall k,
  parse_chars (escape_onto s (String (ascii_of_nat 34) k)) = Some (s, k).
Proof.
  induction s as [|c s IH]; intros k; [reflexivity|].
  cbn [escape_onto]. now rewrite parse_chars_escape_char, IH.
Qed.

(** *** Numbers *)

Lemma digit_value_digit d : d < 10 -> digit_value (digit d) = Some d.
Proof.
  intros Hd. do 10 (destruct d as [|d]; [reflexivity|]). lia.
Qed.

Lemma read_digits_stop a k : starts_with_digit k = false -> read_digits a k = (a, k).
Proof.
  destruct k as [|c k]; [reflexivity|]. simpl.
  now destruct (digit_value c).
Qed.

Lemma read_digits_digits_of fuel : forall n k,
  n < fuel ->
  exists m, forall a,
    read_digits a (digits_of fuel n k) = read_digits (a * m + Z.of_nat n) k.
Proof.
  induction fuel as [|f IH]; intros n k Hn; [lia|].
  cbn [digits_of].
  assert (Hmod : n mod 10 < 10) by (apply Nat.mod_upper_bound; lia).
  assert (Hstep : forall a,
    read_digits a (String (digit (n mod 10)) k)
    = read_digits (10 * a + Z.of_nat (n mod 10)) k).
  { intros a. cbn [read_digits]. now rewrite digit_value_digit. }
  pose proof (Nat.div_mod_eq n 10) as Hdm.
  destruct (n / 10) as [|q] eqn:Eq.
  - exists 10%Z. intros a. rewrite Hstep. f_equal. lia.
  - destruct (IH (S q) (String (digit (n mod 10)) k)) as [m Hm]; [lia|].
    exists (10 * m)%Z. intros a. rewrite Hm, Hstep. f_equal. lia.
Qed.

Lemma digits_of_head f : forall n k,
  exists c tl, digits_of (S f) n k = String c tl /\ is_digit c = true.
Proof.
  induction f as [|f IH]; intros n k.
  - cbn [digits_of]. 
    assert (Hmod : n mod 10 < 10) by (apply Nat.mod_upper_bound; lia).
    exists (digit (n mod 10)), k. split; [now destruct (n / 10)|].
    unfold is_digit. now rewrite digit_value_digit.
  - cbn [digits_of].
    assert (Hmod : n mod 10 < 10) by (apply Nat.mod_upper_bound; lia).
    destruct (n / 10) as [|q].
    + exists (digit (n mod 10)), k. split; [reflexivity|].
      unfold is_digit. now rewrite digit_value_digit.
    + apply IH.
Qed.

Lemma parse_int_digits c tl n rest :
  is_digit c = true ->
  read_digits 0 (String c tl) = (n, rest) ->
  parse_int (String c tl) = Some (JInt n, rest).
Proof.
  intros Hc Hread. unfold parse_int.
  assert (Hminus : Ascii.eqb c "-" = false).
  { destruct (Ascii.eqb_spec c "-"%char) as [->|]; [discriminate | reflexivity]. }
  rewrite Hminus. unfold starts_with_digit. unfold is_digit in Hc.
  destruct (digit_value c) eqn:E; [|discriminate].
  now rewrite Hread.
Qed.

Lemma parse_int_decimal z k :
  starts_with_digit k = false ->
  parse_int (decimal_onto z k) = Some (JInt z, k).
Proof.
  intros Hk. destruct z as [|p|p]; unfold decimal_onto.
  - apply parse_int_digits; [reflexivity|].
    cbn [read_digits]. change (digit_value "0") with (Some 0). cbv iota.
    now rewrite read_digits_stop.
  - destruct (digits_of_head (Pos.to_nat p) (Pos.to_nat p) k) as (c & tl & E & Hc).
    destruct (read_digits_digits_of (S (Pos.to_nat p)) (Pos.to_nat p) k) as [m Hm];
      [lia|].
    specialize (Hm 0%Z). rewrite E in *. apply parse_int_digits; [exact Hc|].
    rewrite Hm, read_digits_stop by exact Hk. f_equal.
    rewrite positive_nat_Z. lia.
  - destruct (digits_of_head (Pos.to_nat p) (Pos.to_nat p) k) as (c & tl & E & Hc).
    destruct (read_digits_digits_of (S (Pos.to_nat p)) (Pos.to_nat p) k) as [m Hm];
      [lia|].
    specialize (Hm 0%Z). rewrite E in *.
    unfold parse_int. change (Ascii.eqb "-" "-") with true. cbv iota.
    unfold starts_with_digit. unfold is_digit in Hc.
    destruct (digit_value c) eqn:Ed; [|discriminate].
    rewrite Hm, read_digits_stop by exact Hk.
    rewrite positive_nat_Z. do 2 f_equal.
Qed.

(** *** Dispatch on the first character *)

Lemma is_digit_opens c tl : is_digit c = true -> opens (String c tl) = true.
Proof.
  destruct c as [[] [] [] [] [] [] [] []]; intros Hc;
    solve [reflexivity | discriminate Hc].
Qed.

Lemma parse_value_number f c tl :
  is_digit c = true \/ c = "-"%char ->
  parse_value (S f) (String c tl) = parse_int (String c tl).
Proof.
  destruct c as [[] [] [] [] [] [] [] []]; intros [Hc | Hc];
    solve [reflexivity | discriminate Hc].
Qed.

Lemma skip_ws_opens s : opens s = true -> skip_ws s = s.
Proof.
  destruct s as [|c s]; [discriminate|]. simpl.
  destruct (is_space c); simpl; [discriminate | reflexivity].
Qed.

Lemma head_is_opens s : opens s = true -> head_is "]" s = None.
Proof.
  destruct s as [|c s]; [discriminate|]. unfold opens, head_is. intros Hc.
  apply andb_prop in Hc as [_ Hc].
  destruct (Ascii.eqb "]" c); [discriminate Hc | reflexivity].
Qed.

Lemma parse_value_ws f s s' :
  skip_ws s = skip_ws s' -> parse_value f s = parse_value f s'.
Proof.
  intros Hs. destruct f as [|f]; [reflexivity|].
  cbn [parse_value]. now rewrite Hs.
Qed.

Lemma decimal_onto_head z k :
  exists c tl, decimal_onto z k = String c tl /\
               (is_digit c = true \/ c = "-"%char).
Proof.
  destruct z as [|p|p]; unfold decimal_onto.
  - exists "0"%char, k. auto.
  - destruct (digits_of_head (Pos.to_nat p) (Pos.to_nat p) k) as (c & tl & E & Hc).
    exists c, tl. auto.
  - eauto.
Qed.

Lemma emit_opens level v k : opens (emit level v k) = true.
Proof.
  destruct v as [|[]|z|s|[|x l]|[|kx d]]; try reflexivity.
  cbn [emit].
  destruct (decimal_onto_head z k) as (c & tl & -> & [Hc | ->]);
    [now apply is_digit_opens | reflexivity].
Qed.

(** *** Dicts without repeated keys *)

Lemma dict_set_fresh k v d acc :
  unique (map fst (acc ++ (k, v) :: d)) = true ->
  dict_set k v acc = (acc ++ [(k, v)])%list.
Proof.
  induction acc as [|[k0 v0] acc IH]; intros Hu; [reflexivity|].
  cbn [app map fst unique] in Hu. apply andb_prop in Hu as [Hk0 Hu].
  cbn [dict_set app].
  rewrite map_app, existsb_app in Hk0. cbn [map fst existsb] in Hk0.
  destruct (String.eqb k0 k) eqn:E.
  - rewrite orb_true_r in Hk0. discriminate.
  - rewrite String.eqb_sym, E. now rewrite IH.
Qed.

Lemma dict_of_pairs_unique d : unique (map fst d) = true -> dict_of_pairs d = d.
Proof.
  unfold dict_of_pairs.
  assert (Hgen : forall acc,
    unique (map fst (acc ++ d)) = true ->
    fold_left (fun d kv => dict_set (fst kv) (snd kv) d) d acc = (acc ++ d)%list).
  { induction d as [|[k v] d IH]; intros acc Hu.
    - now rewrite app_nil_r.
    - cbn [fold_left fst snd]. rewrite (dict_set_fresh k v d acc Hu).
      rewrite IH; rewrite <- app_assoc; [reflexivity | exact Hu]. }
  intros Hu. now apply (Hgen []).
Qed.

(** *** Values *)

Lemma parse_items_listed level k l : forall x f,
  reads x -> Forall reads l ->
  S (weight x + items_weight l) <= f ->
  parse_items f
    (nl ++ pad (2 * S level)
       (emit (S level) x
          (listed (fun y k' => pad (2 * S level) (emit (S level) y k'))
                  (nl ++ pad (2 * level) ("]" ++ k)) l)))
  = Some (x :: l, k).
Proof.
  induction l as [|y l IH]; intros x f Hx Hl Hf;
    (destruct f as [|f]; [lia|]); cbn [parse_items];
    rewrite (parse_value_ws f _ (emit (S level) x _))
      by (rewrite skip_ws_nl, skip_ws_pad; reflexivity).
  - rewrite Hx; [|cbn [items_weight fold_right] in Hf; lia | reflexivity].
    cbn [listed]. rewrite skip_ws_nl, skip_ws_pad. reflexivity.
  - cbn [items_weight fold_right] in Hf. fold (items_weight l) in Hf.
    rewrite Hx; [|lia | reflexivity].
    cbn [listed]. inversion Hl as [|y' l' Hy Hl']; subst.
    change (skip_ws ("," ++ ?s)) with ("," ++ s).
    cbn [append]. change (Ascii.eqb "," ",") with true. cbv iota.
    change (String "010" ?s) with (nl ++ s).
    rewrite IH; [reflexivity | exact Hy | exact Hl' | lia].
Qed.

Lemma parse_members_entry f text key E :
  skip_ws text = quote_onto key (": " ++ E) ->
  parse_members (S f) text
  = match parse_value f E with
    | None => None
    | Some (v, r3) =>
        match skip_ws r3 with
        | String c r4 =>
            if Ascii.eqb c "," then
              match parse_members f r4 with
              | Some (d, r5) => Some ((key, v) :: d, r5)
              | None => None
              end
            else if Ascii.eqb c "}" then Some ([(key, v)], r4)
            else None
        | EmptyString => None
        end
    end.
Proof.
  intros Htext. cbn [parse_members]. rewrite Htext. unfold quote_onto.
  cbn [head_is]. rewrite Ascii.eqb_refl, parse_chars_escape.
  change (head_is ":" (skip_ws (": " ++ E))) with (Some (" " ++ E)).
  cbv iota. now rewrite (parse_value_ws f (" " ++ E) E).
Qed.

Lemma parse_members_listed level k d : forall kx f,
  reads (snd kx) -> Forall (fun ky => reads (snd ky)) d ->
  S (weight (snd kx) + members_weight d) <= f ->
  parse_members f
    (nl ++ pad (2 * S level)
       (quote_onto (fst kx)
          (": " ++
           emit (S level) (snd kx)
             (listed (fun ky k' =>
                        pad (2 * S level)
                            (quote_onto (fst ky)
                               (": " ++ emit (S level) (snd ky) k')))
                     (nl ++ pad (2 * level) ("}" ++ k)) d))))
  = Some (kx :: d, k).
Proof.
  induction d as [|ky d IH]; intros [key x] f Hx Hd Hf;
    (destruct f as [|f]; [lia|]); cbn [fst snd] in *;
    rewrite (parse_members_entry f _ key _)
      by (rewrite skip_ws_nl, skip_ws_pad; reflexivity).
  - rewrite Hx; [|cbn [members_weight fold_right] in Hf; lia | reflexivity].
    cbn [listed]. rewrite skip_ws_nl, skip_ws_pad. reflexivity.
  - cbn [members_weight fold_right] in Hf. fold (members_weight d) in Hf.
    rewrite Hx; [|lia | reflexivity].
    cbn [listed]. inversion Hd as [|ky' d' Hy Hd']; subst.
    change (skip_ws ("," ++ ?s)) with ("," ++ s).
    cbn [append]. change (Ascii.eqb "," ",") with true. cbv iota.
    change (String "010" ?s) with (nl ++ s).
    rewrite IH; [reflexivity | exact Hy | exact Hd' | lia].
Qed.

Lemma parse_emit v : plain v = true -> reads v.
Proof.
  induction v as [|b|z|s|l IH|d IH] using json_nested_ind; intros Hp;
    intros level k fuel Hfuel Hk; (destruct fuel as [|f]; [cbn in Hfuel; lia|]).
  - reflexivity.
  - now destruct b.
  - cbn [emit].
    destruct (decimal_onto_head z k) as (c & tl & E & Hc).
    rewrite E, (parse_value_number f c tl Hc), <- E.
    now apply parse_int_decimal.
  - cbn [emit]. unfold quote_onto.
    change (parse_value (S f) (String (ascii_of_nat 34) ?t))
      with (match parse_chars t with
            | Some (t', r) => Some (JStr t', r)
            | None => None
            end).
    now rewrite parse_chars_escape.
  - destruct l as [|x l]; [reflexivity|].
    cbn [plain forallb] in Hp. apply andb_prop in Hp as [Hx Hl].
    inversion IH as [|x' l' IHx IHl]; subst.
    assert (Hreads : Forall reads l).
    { clear - IHl Hl. induction IHl as [|y l Hy _ IHl]; [constructor|].
      cbn [forallb] in Hl. apply andb_prop in Hl as [Hy' Hl']. auto. }
    cbn [emit].
    change (parse_value (S f) ("[" ++ ?t))
      with (match head_is "]" (skip_ws t) with
            | Some r => Some (JArr [], r)
            | None => match parse_items f t with
                      | Some (l, r) => Some (JArr l, r)
                      | None => None
                      end
            end).
    rewrite skip_ws_nl, skip_ws_pad.
    rewrite skip_ws_opens, head_is_opens by apply emit_opens.
    rewrite parse_items_listed; auto.
    cbn [weight] in Hfuel. fold (items_weight (x :: l)) in Hfuel.
    cbn [items_weight fold_right] in Hfuel. fold (items_weight l) in Hfuel. lia.
  - destruct d as [|kx d]; [reflexivity|].
    cbn [plain] in Hp. apply andb_prop in Hp as [Hu Hp].
    cbn [forallb] in Hp. apply andb_prop in Hp as [Hx Hd].
    inversion IH as [|kx' d' IHx IHd]; subst.
    assert (Hreads : Forall (fun ky => reads (snd ky)) d).
    { clear - IHd Hd. induction IHd as [|y d Hy _ IHd]; [constructor|].
      cbn [forallb] in Hd. apply andb_prop in Hd as [Hy' Hd']. auto. }
    cbn [emit].
    change (parse_value (S f) ("{" ++ ?t))
      with (match head_is "}" (skip_ws t) with
            | Some r => Some (JObj [], r)
            | None => match parse_members f t with
                      | Some (d, r) => Some (JObj (dict_of_pairs d), r)
                      | None => None
                      end
            end).
    rewrite skip_ws_nl, skip_ws_pad. unfold quote_onto at 1.
    change (head_is "}" (skip_ws (String (ascii_of_nat 34) ?s))) with (@None string).
    fold (quote_onto (fst kx)
            (": " ++ emit (S level) (snd kx)
               (listed (fun ky k' =>
                          pad (2 * S level)
                              (quote_onto (fst ky)
                                 (": " ++ emit (S level) (snd ky) k')))
                       (nl ++ pad (2 * level) ("}" ++ k)) d))).
    rewrite parse_members_listed; auto.
    + now rewrite dict_of_pairs_unique.
    + cbn [weight] in Hfuel. fold (members_weight (kx :: d)) in Hfuel.
      cbn [members_weight fold_right] in Hfuel. fold (members_weight d) in Hfuel.
      lia.
Qed.

(** *** Enough fuel *)

Lemma length_append s t :
  String.length (s ++ t) = String.length s + String.length t.
Proof. induction s; simpl; auto. Qed.

Lemma length_pad n k : String.length (pad n k) = n + String.length k.
Proof. induction n; simpl; auto. Qed.

Lemma digits_of_S f n k :
  digits_of (S f) n k
  = match n / 10 with
    | O => String (digit (n mod 10)) k
    | q => digits_of f q (String (digit (n mod 10)) k)
    end.
Proof. reflexivity. Qed.

Lemma length_digits_of fuel : forall n k,
  0 < fuel -> String.length k < String.length (digits_of fuel n k).
Proof.
  induction fuel as [|f IH]; intros n k Hf; [lia|].
  rewrite digits_of_S. destruct (n / 10) as [|q]; [simpl; lia|].
  destruct f as [|f]; [simpl; lia|].
  assert (Hpos : 0 < S f) by lia.
  specialize (IH (S q) (String (digit (n mod 10)) k) Hpos).
  cbn [String.length] in IH. lia.
Qed.

Lemma length_escape_onto s k :
  String.length k <= String.length (escape_onto s k).
Proof.
  induction s as [|c s IH]; [simpl; lia|].
  cbn [escape_onto]. rewrite length_append. lia.
Qed.

Lemma length_listed {A} (one : A -> string -> string) (w : A -> nat)
    (close : string) (l : list A) :
  Forall (fun y => forall k, S (w y) + String.length k
                             <= String.length (one y k)) l ->
  fold_right (fun y n => S (w y + n)) 0 l + String.length close
  <= String.length (listed one close l).
Proof.
  induction 1 as [|y l Hy _ IH]; [simpl; lia|].
  cbn [fold_right listed]. rewrite !length_append.
  specialize (Hy (listed one close l)). simpl. lia.
Qed.

Lemma emit_fits v : fits v.
Proof.
  induction v as [|b|z|s|l IH|d IH] using json_nested_ind; intros level k.
  - simpl. lia.
  - destruct b; simpl; lia.
  - cbn [emit weight]. destruct z as [|p|p]; unfold decimal_onto.
    + simpl. lia.
    + pose proof (length_digits_of (S (Pos.to_nat p)) (Pos.to_nat p) k). lia.
    + pose proof (length_digits_of (S (Pos.to_nat p)) (Pos.to_nat p) k).
      cbn [String.length]. lia.
  - cbn [emit weight]. unfold quote_onto.
    pose proof (length_escape_onto s (String (ascii_of_nat 34) k)) as Hs.
    simpl in *. lia.
  - destruct l as [|x l]; [simpl; lia|].
    inversion IH as [|x' l' IHx IHl]; subst.
    cbn [emit weight fold_right]. rewrite !length_append, length_pad.
    specialize (IHx (S level)
      (listed (fun y k' => pad (2 * S level) (emit (S level) y k'))
              (nl ++ pad (2 * level) ("]" ++ k)) l)).
    pose proof (length_listed
      (fun y k' => pad (2 * S level) (emit (S level) y k')) weight
      (nl ++ pad (2 * level) ("]" ++ k)) l) as Hl.
    rewrite !length_append, length_pad in Hl.
    assert (Hall : Forall (fun y => forall k0,
              S (weight y) + String.length k0
              <= String.length (pad (2 * S level) (emit (S level) y k0))) l).
    { clear - IHl. induction IHl as [|y l Hy _ IHl]; constructor; auto.
      intros k0. rewrite length_pad. specialize (Hy (S level) k0). lia. }
    specialize (Hl Hall). simpl in *. lia.
  - destruct d as [|kx d]; [simpl; lia|].
    inversion IH as [|kx' d' IHx IHd]; subst.
    cbn [emit weight fold_right]. rewrite !length_append, length_pad.
    unfold quote_onto at 1.
    pose proof (length_escape_onto (fst kx)
      (String (ascii_of_nat 34)
         (": " ++ emit (S level) (snd kx)
            (listed (fun ky k' =>
                       pad (2 * S level)
                           (quote_onto (fst ky)
                              (": " ++ emit (S level) (snd ky) k')))
                    (nl ++ pad (2 * level) ("}" ++ k)) d)))) as Hkey.
    cbn [String.length] in Hkey |- *. rewrite !length_append in Hkey.
    specialize (IHx (S level)
      (listed (fun ky k' =>
                 pad (2 * S level)
                     (quote_onto (fst ky)
                        (": " ++ emit (S level) (snd ky) k')))
              (nl ++ pad (2 * level) ("}" ++ k)) d)).
    pose proof (length_listed
      (fun ky k' => pad (2 * S level)
                        (quote_onto (fst ky)
                           (": " ++ emit (S level) (snd ky) k')))
      (fun ky => weight (snd ky))
      (nl ++ pad (2 * level) ("}" ++ k)) d) as Hd.
    rewrite !length_append, length_pad in Hd.
    assert (Hall : Forall (fun y => forall k0,
              S (weight (snd y)) + String.length k0
              <= String.length
                   (pad (2 * S level)
                        (quote_onto (fst y)
                           (": " ++ emit (S level) (snd y) k0)))) d).
    { clear - IHd. induction IHd as [|y d Hy _ IHd]; constructor; auto.
      intros k0. rewrite length_pad. unfold quote_onto.
      pose proof (length_escape_onto (fst y)
        (String (ascii_of_nat 34) (": " ++ emit (S level) (snd y) k0))) as Hk.
      cbn [String.length] in Hk |- *. rewrite !length_append in Hk.
      specialize (Hy (S level) k0). simpl in *. lia. }
    specialize (Hd Hall). simpl in *. lia.
Qed.

(** On every value whose dicts have no key twice, [loads] reads back what
    [dumps] wrote. *)
Theorem loads_dumps v : plain v = true -> loads (dumps v) = Some v.
Proof.
  intros Hp. unfold loads, dumps.
  rewrite (parse_emit v Hp 0 "" _); [reflexivity | | reflexivity].
  pose proof (emit_fits v 0 ""). lia.
Qed.

End PyJsonFacts.

(** ** More about the reports *)

Section ReportFacts.

Context {H : Host}.

Lemma select_has_status s ts :
  forallb (has_field "status") ts = true ->
  select (has_status s) ts = Return (filter (status_is s) ts).
Proof.
  induction ts as [|t ts IH]; intros Hall; [reflexivity|].
  cbn [forallb] in Hall. apply andb_prop in Hall as [Ht Hts].
  cbn [select filter]. rewrite (IH Hts).
  unfold has_status, status_is.
  destruct (has_field_getitem _ _ Ht) as [v Ev]. rewrite Ev.
  now rewrite (py_getitem_field _ _ _ Ev).
Qed.

Lemma py_getitem_lookup_error obj k e :
  py_getitem obj k = Raise e -> lookup_error e.
Proof.
  unfold py_getitem, lookup_error.
  destruct obj; try (intros [= <-]; now left).
  destruct (dict_get k fields); [discriminate | intros [= <-]; eauto].
Qed.

Lemma has_field_missing k t :
  has_field k t = false -> exists e, py_getitem t k = Raise e.
Proof.
  unfold has_field, field, py_getitem. destruct t; eauto.
  destruct (dict_get k fields); [discriminate | eauto].
Qed.

Lemma task_line_raises t e : task_line t = Raise e -> lookup_error e.
Proof.
  unfold task_line.
  destruct (py_getitem t "id") eqn:E1;
    [|intros [= <-]; eauto using py_getitem_lookup_error].
  destruct (py_getitem t "description") eqn:E2;
    [|intros [= <-]; eauto using py_getitem_lookup_error].
  destruct (py_getitem t "priority") eqn:E3;
    [|intros [= <-]; eauto using py_getitem_lookup_error].
  destruct (py_getitem t "status") eqn:E4;
    [discriminate | intros [= <-]; eauto using py_getitem_lookup_error].
Qed.

Lemma task_line_unlistable t :
  listable t = false -> exists e, task_line t = Raise e.
Proof.
  unfold listable, task_line. intros Hl.
  destruct (py_getitem t "id") eqn:E1; [|eauto].
  destruct (py_getitem t "description") eqn:E2; [|eauto].
  destruct (py_getitem t "priority") eqn:E3; [|eauto].
  destruct (py_getitem t "status") eqn:E4; [|eauto].
  unfold has_field in Hl.
  rewrite (py_getitem_field _ _ _ E1), (py_getitem_field _ _ _ E2),
    (py_getitem_field _ _ _ E3), (py_getitem_field _ _ _ E4) in Hl.
  discriminate.
Qed.

(** A comprehension raises as soon as its body raises on some item. *)
Lemma for_each_raises {A B} (f : A -> outcome B) (l : list A) x :
  In x l -> (exists e, f x = Raise e) -> exists e, for_each f l = Raise e.
Proof.
  induction l as [|y l IH]; intros Hin Hx; [contradiction|].
  cbn [for_each]. destruct (f y) as [b|e] eqn:Ey; [|eauto].
  destruct Hin as [->|Hin].
  - destruct Hx as [e He]. congruence.
  - destruct (IH Hin Hx) as [e He]. rewrite He. eauto.
Qed.

(** ... and what it raises is what the body raised on an item. *)
Lemma for_each_raised {A B} (f : A -> outcome B) (l : list A) e :
  for_each f l = Raise e -> exists x, In x l /\ f x = Raise e.
Proof.
  induction l as [|y l IH]; [discriminate|].
  cbn [for_each]. destruct (f y) as [b|e'] eqn:Ey.
  - destruct (for_each f l) as [bs|e'']; [discriminate|].
    intros [= <-]. destruct (IH eq_refl) as (x & Hin & Hx).
    exists x. split; [now right | exact Hx].
  - intros [= <-]. exists y. split; [now left | exact Ey].
Qed.

Lemma for_each_length {A B} (f : A -> outcome B) (l : list A) bs :
  for_each f l = Return bs -> List.length bs = List.length l.
Proof.
  revert bs. induction l as [|y l IH]; intros bs.
  - now intros [= <-].
  - cbn [for_each]. destruct (f y); [|discriminate].
    destruct (for_each f l) as [bs'|]; [|discriminate].
    intros [= <-]. simpl. f_equal. now apply IH.
Qed.

(** Both reports leave everything but the outbox alone, in every case. *)
Lemma insights_keep b st :
  same_but_outbox st (snd (get_smart_recommendations b st)) /\
  same_but_outbox st (snd (generate_progress_report b st)).
Proof.
  assert (Hsame : same_but_outbox st st) by now repeat split.
  rewrite get_smart_recommendations_run, generate_progress_report_run. split.
  - destruct (negb (py_truthy (tasks st))); [exact Hsame|].
    destruct (py_iter (tasks st)) as [items|e]; [|exact Hsame].
    destruct (for_each task_line items); [|exact Hsame].
    apply create_message_state.
  - destruct (py_iter (tasks st)) as [items|e]; [|exact Hsame].
    destruct (select (has_status "completed") items); [|exact Hsame].
    destruct (select (has_status "pending") items); [|exact Hsame].
    apply create_message_state.
Qed.

End ReportFacts.

(** ** More about sessions *)

Section SessionFacts.

Context {H : Host}.

Lemma complete_scan_no_dicts task_id items : forall i st,
  (forall t, In t items -> py_getitem t "id" = Raise TypeError) ->
  snd (complete_scan task_id i items st) = st.
Proof.
  destruct items as [|t items]; intros i st Hall; [reflexivity|].
  now rewrite (complete_scan_fault task_id i t items TypeError st)
    by (apply Hall; now left).
Qed.

(** On a collection that is no list [complete_task] changes nothing. *)
Lemma complete_task_frozen task_id st :
  is_list (tasks st) = false -> snd (complete_task task_id st) = st.
Proof.
  intros Hno. unfold complete_task, bind, get, lift.
  destruct (tasks st) as [| | | s | l | d]; try reflexivity; try discriminate.
  - cbn [py_iter]. apply complete_scan_no_dicts.
    intros t Hin. induction s as [|c s IH]; [contradiction|].
    destruct Hin as [<-|Hin]; [reflexivity | auto].
  - cbn [py_iter]. apply complete_scan_no_dicts.
    intros t Hin. apply in_map_iff in Hin as (kv & <- & _). reflexivity.
Qed.

(** ... and [add_task] raises without touching it, the document or the
    history. *)
Lemma add_task_frozen b description st :
  is_list (tasks st) = false ->
  tasks (snd (add_task b description st)) = tasks st /\
  task_history (snd (add_task b description st)) = task_history st /\
  disk (snd (add_task b description st)) = disk st /\
  raised (fst (add_task b description st)) = true.
Proof.
  intros Hno. rewrite add_task_run. cbv zeta.
  destruct st as [v hist dk tk out].
  cbn [tasks task_history disk ticks outbox] in *.
  destruct (provider _ _) as [text|]; [|now repeat split].
  destruct (json_loads text) as [analysis|]; [|now repeat split].
  destruct (py_len v) as [n|e]; [|now repeat split].
  destruct (assemble _ _ _ _ _) as [task|e]; [|now repeat split].
  destruct v; try discriminate; now repeat split.
Qed.

(** What one operation can do to the document: leave it and the collection
    alone, write the new collection out, or fail to write. *)
Lemma step_effect b st o :
  (tasks (step b st o) = tasks st /\ disk (step b st o) = disk st)
  \/ (disk st <> Locked /\
      disk (step b st o) = Present (json_dumps (tasks (step b st o))))
  \/ (disk st = Locked /\ disk (step b st o) = Locked).
Proof.
  unfold step. destruct o as [description|n| |]; cbn [run_op].
  - rewrite add_task_run. cbv zeta.
    destruct (provider _ _) as [text|]; [|now left].
    destruct (json_loads text) as [analysis|]; [|now left].
    destruct (py_len (tasks st)) as [k|e]; [|now left].
    destruct (assemble _ _ _ _ _) as [task|e]; [|now left].
    destruct (py_append (tasks st) task) as [appended|e]; [|now left].
    destruct (disk st) eqn:Ed.
    + right. left. split; [discriminate | reflexivity].
    + right. right. now split.
    + right. left. split; [discriminate | reflexivity].
  - destruct (is_list (tasks st)) eqn:El.
    + destruct (tasks st) as [| | | |ts|] eqn:Hts; try discriminate.
      destruct (complete_task_cases n st ts Hts)
        as [[_ ->] | [(pre & t & post & e & _ & _ & _ & ->)
                     | (pre & d & post & -> & Hpre & Hm & ->)]].
      * left. cbn [snd]. now rewrite Hts.
      * left. cbn [snd]. now rewrite Hts.
      * cbn [snd completed_state tasks disk]. destruct (disk st) eqn:Ed.
        -- right. left. split; [discriminate | reflexivity].
        -- right. right. now split.
        -- right. left. split; [discriminate | reflexivity].
    + left. now rewrite (complete_task_frozen n st El).
  - left. destruct (insights_keep b st) as [(Ht & _ & Hd & _) _]. now split.
  - left. destruct (insights_keep b st) as [_ (Ht & _ & Hd & _)]. now split.
Qed.

Lemma step_in_sync b st o : in_sync st -> in_sync (step b st o).
Proof.
  unfold in_sync. intros Hs.
  destruct (step_effect b st o) as [[Ht Hd] | [[_ Hd] | [Hl _]]].
  - now rewrite Ht, Hd.
  - exact Hd.
  - rewrite Hl in Hs. discriminate.
Qed.

Lemma run_in_sync b ops : forall st, in_sync st -> in_sync (run b ops st).
Proof.
  induction ops as [|o ops IH]; intros st Hs; [exact Hs|].
  apply IH. now apply step_in_sync.
Qed.

(** One operation on a collection whose ids are in sequence. *)
Lemma step_ids_in_sequence b st o ts :
  tasks st = JArr ts -> ids_in_sequence ts ->
  exists ts',
    tasks (step b st o) = JArr ts' /\ ids_in_sequence ts' /\
    List.length ts <= List.length ts'.
Proof.
  intros Hts Hseq.
  destruct (step_shape b st o ts Hts)
    as [Hsame | [(dsc & task & _ & Hid & Hnew)
                | (n & pre & d & post & _ & Hsplit & _ & _ & Hnew)]].
  - exists ts. auto.
  - exists (ts ++ [task])%list. split; [exact Hnew|].
    split; [now apply ids_in_sequence_snoc|].
    rewrite length_app. simpl. lia.
  - subst ts. eexists. split; [exact Hnew|].
    unfold ids_in_sequence in *.
    rewrite !map_app, !length_app in *. cbn [map List.length] in *.
    split; [|lia].
    rewrite <- Hseq. do 2 f_equal. cbn [field].
    apply mark_completed_other; discriminate.
Qed.

Lemma run_ids_in_sequence b ops : forall st ts,
  tasks st = JArr ts -> ids_in_sequence ts ->
  exists ts',
    tasks (run b ops st) = JArr ts' /\ ids_in_sequence ts' /\
    List.length ts <= List.length ts'.
Proof.
  induction ops as [|o ops IH]; intros st ts Hts Hseq.
  - exists ts. auto.
  - destruct (step_ids_in_sequence b st o ts Hts Hseq) as (ts1 & Hts1 & Hseq1 & Hlen1).
    destruct (IH (step b st o) ts1 Hts1 Hseq1) as (ts' & Hts' & Hseq' & Hlen').
    exists ts'. split; [exact Hts'|]. split; [exact Hseq' | lia].
Qed.

End SessionFacts.

Section FrozenFacts.

Context {H : Host}.

Lemma step_frozen b st o :
  is_list (tasks st) = false ->
  tasks (step b st o) = tasks st /\
  task_history (step b st o) = task_history st /\
  disk (step b st o) = disk st.
Proof.
  intros Hno. unfold step. destruct o as [description|n| |]; cbn [run_op].
  - destruct (add_task_frozen b description st Hno) as (Ht & Hh & Hd & _). auto.
  - now rewrite (complete_task_frozen n st Hno).
  - destruct (insights_keep b st) as [(Ht & Hh & Hd & _) _]. auto.
  - destruct (insights_keep b st) as [_ (Ht & Hh & Hd & _)]. auto.
Qed.

Lemma complete_task_outbox task_id st :
  outbox (snd (complete_task task_id st)) = outbox st /\
  ticks st <= ticks (snd (complete_task task_id st)).
Proof.
  destruct (is_list (tasks st)) eqn:El.
  - destruct (tasks st) as [| | | |ts|] eqn:Hts; try discriminate.
    destruct (complete_task_cases task_id st ts Hts)
      as [[_ ->] | [(pre & t & post & e & _ & _ & _ & ->)
                   | (pre & d & post & -> & Hpre & Hm & ->)]];
      cbn [snd completed_state outbox ticks]; split; auto; lia.
  - rewrite (complete_task_frozen task_id st El). auto.
Qed.

End FrozenFacts.

(** ** About the listing *)

Lemma prefix_append a b : String.prefix a (a ++ b) = true.
Proof.
  induction a as [|c a IH]; simpl; [now destruct b|].
  destruct (ascii_dec c c) as [_|Hne]; [exact IH | now contradiction Hne].
Qed.

Section DisplayFacts.

Context {H : Host}.

Lemma display_tasks_run st :
  display_tasks st
  = if negb (py_truthy (tasks st)) then (Return no_tasks_found, st)
    else
      match py_iter (tasks st) with
      | Raise e => (Raise e, st)
      | Return items =>
      match for_each display_line items with
      | Raise e => (Raise e, st)
      | Return task_list => (Return (join nl task_list), st)
      end end.
Proof.
  unfold display_tasks, bind, get, lift, ret.
  destruct (negb (py_truthy (tasks st))); [reflexivity|].
  destruct (py_iter (tasks st)) as [items|e]; [|reflexivity].
  now destruct (for_each display_line items).
Qed.

(** [display_tasks] only reads. *)
Lemma display_tasks_state st : snd (display_tasks st) = st.
Proof.
  rewrite display_tasks_run.
  destruct (negb (py_truthy (tasks st))); [reflexivity|].
  destruct (py_iter (tasks st)) as [items|e]; [|reflexivity].
  now destruct (for_each display_line items).
Qed.

Lemma display_line_displayable t :
  displayable t = true ->
  exists rest, display_line t = Return (mark_of t ++ rest).
Proof.
  unfold displayable. intros Hd.
  apply andb_prop in Hd as [Hd Hc]. apply andb_prop in Hd as [Hd Hp].
  apply andb_prop in Hd as [Hd Hdesc]. apply andb_prop in Hd as [Hs Hi].
  destruct (has_field_getitem _ _ Hs) as [s Es].
  destruct (has_field_getitem _ _ Hi) as [i Ei].
  destruct (has_field_getitem _ _ Hdesc) as [d Ed].
  destruct (has_field_getitem _ _ Hp) as [p Ep].
  destruct (has_field_getitem _ _ Hc) as [c Ec].
  unfold display_line, mark_of, status_is.
  rewrite Es, Ei, Ed, Ep, Ec, (py_getitem_field _ _ _ Es). eauto.
Qed.

Lemma display_line_raises t e : display_line t = Raise e -> lookup_error e.
Proof.
  unfold display_line.
  destruct (py_getitem t "status") eqn:E1;
    [|intros [= <-]; eauto using py_getitem_lookup_error].
  destruct (py_getitem t "id") eqn:E2;
    [|intros [= <-]; eauto using py_getitem_lookup_error].
  destruct (py_getitem t "description") eqn:E3;
    [|intros [= <-]; eauto using py_getitem_lookup_error].
  destruct (py_getitem t "priority") eqn:E4;
    [|intros [= <-]; eauto using py_getitem_lookup_error].
  destruct (py_getitem t "category") eqn:E5;
    [discriminate | intros [= <-]; eauto using py_getitem_lookup_error].
Qed.

Lemma display_line_undisplayable t :
  displayable t = false -> exists e, display_line t = Raise e.
Proof.
  unfold displayable, display_line. intros Hd.
  destruct (py_getitem t "status") eqn:E1; [|eauto].
  destruct (py_getitem t "id") eqn:E2; [|eauto].
  destruct (py_getitem t "description") eqn:E3; [|eauto].
  destruct (py_getitem t "priority") eqn:E4; [|eauto].
  destruct (py_getitem t "category") eqn:E5; [|eauto].
  unfold has_field in Hd.
  rewrite (py_getitem_field _ _ _ E1), (py_getitem_field _ _ _ E2),
    (py_getitem_field _ _ _ E3), (py_getitem_field _ _ _ E4),
    (py_getitem_field _ _ _ E5) in Hd.
  discriminate.
Qed.

Lemma for_each_display_line ts :
  forallb displayable ts = true ->
  exists task_list,
    for_each display_line ts = Return task_list /\
    Forall2 (fun t line => String.prefix (mark_of t) line = true) ts task_list.
Proof.
  induction ts as [|t ts IH]; intros Hall.
  - exists []. split; [reflexivity | constructor].
  - cbn [forallb] in Hall. apply andb_prop in Hall as [Ht Hts].
    destruct (display_line_displayable t Ht) as [rest Et].
    destruct (IH Hts) as (lines & El & Hmarks).
    exists ((mark_of t ++ rest) :: lines). cbn [for_each].
    rewrite Et, El. split; [reflexivity|].
    constructor; [apply prefix_append | exact Hmarks].
Qed.

End DisplayFacts.

(** ** Ids and positions *)

Lemma ids_from_split s (pre : list json) t post :
  map (field "id") (pre ++ t :: post)
  = map (fun k => Some (JInt (Z.of_nat k)))
        (seq s (List.length (pre ++ t :: post))) ->
  map (field "id") pre
  = map (fun k => Some (JInt (Z.of_nat k))) (seq s (List.length pre)) /\
  field "id" t = Some (JInt (Z.of_nat (s + List.length pre))).
Proof.
  revert s. induction pre as [|p pre IH]; intros s Hseq.
  - cbn [app map List.length seq] in *. injection Hseq as Ht _.
    rewrite Nat.add_0_r. now split.
  - cbn [app map List.length seq] in *. injection Hseq as Hp Hrest.
    destruct (IH (S s) Hrest) as [Hpre Ht]. split.
    + now rewrite Hp, Hpre.
    + rewrite Ht. do 3 f_equal. lia.
Qed.

Lemma ids_from_skips s (pre : list json) n :
  map (field "id") pre
  = map (fun k => Some (JInt (Z.of_nat k))) (seq s (List.length pre)) ->
  (n < Z.of_nat s \/ Z.of_nat (s + List.length pre) <= n)%Z ->
  forallb (skips n) pre = true.
Proof.
  revert s. induction pre as [|p pre IH]; intros s Hseq Hn; [reflexivity|].
  cbn [map List.length seq] in Hseq. injection Hseq as Hp Hrest.
  cbn [forallb]. rewrite (IH (S s) Hrest) by (cbn [List.length] in Hn; lia).
  rewrite andb_true_r. unfold skips, py_getitem.
  unfold field in Hp. destruct p; try discriminate. rewrite Hp.
  cbn [py_eq_int]. apply negb_true_iff, Z.eqb_neq.
  cbn [List.length] in Hn. lia.
Qed.

Lemma field_id_matches t n :
  field "id" t = Some (JInt n) ->
  exists d, t = JObj d /\ matches n (JObj d) = true.
Proof.
  unfold field. destruct t; try discriminate. intros Hid.
  exists fields. split; [reflexivity|].
  unfold matches, py_getitem. rewrite Hid. apply Z.eqb_refl.
Qed.

(** ** About the menu loop *)

Section MenuFacts.

Context {H : Host} {C : Console}.

Lemma run_app b ops1 ops2 st :
  run b (ops1 ++ ops2) st = run b ops2 (run b ops1 st).
Proof. unfold run. apply fold_left_app. Qed.

Lemma tame_tret {A} b (a : A) : tame b (tret a).
Proof. intros t. split; [now exists [] | auto]. Qed.

Lemma tame_traise {A} b x : tame b (@traise A x).
Proof. intros t. split; [now exists [] | auto]. Qed.

Lemma tame_print b text : tame b (print text).
Proof. intros t. split; [now exists [] | auto]. Qed.

Lemma tame_input b prompt : tame b (input prompt).
Proof.
  intros t. unfold input.
  destruct (keyboard t); cbn [snd agent keyboard]; (split; [now exists [] |]);
    simpl; lia.
Qed.

Lemma tame_tbind {A B} b (c : T A) (k : A -> T B) :
  tame b c -> (forall a, tame b (k a)) -> tame b (tbind c k).
Proof.
  intros Hc Hk t. unfold tbind.
  destruct (Hc t) as [[ops1 Ha] Hkb].
  destruct (c t) as [[a|x] t1]; cbn [snd] in *; [|eauto].
  destruct (Hk a t1) as [[ops2 Ha2] Hkb2].
  split; [|lia].
  exists (ops1 ++ ops2)%list. now rewrite run_app, <- Ha.
Qed.

Lemma tame_try_all {A} b (c : T A) (h : pyexn -> T A) :
  tame b c -> (forall x, tame b (h x)) -> tame b (try_all c h).
Proof.
  intros Hc Hh t. unfold try_all.
  destruct (Hc t) as [[ops1 Ha] Hkb].
  destruct (c t) as [[a|x] t1]; cbn [snd] in *; [eauto|].
  destruct (Hh x t1) as [[ops2 Ha2] Hkb2].
  split; [|lia].
  exists (ops1 ++ ops2)%list. now rewrite run_app, <- Ha.
Qed.

(** A method of the agent that is one operation of [run], or none. *)
Lemma tame_call {A} b (m : M A) ops :
  (forall st, snd (m st) = run b ops st) -> tame b (call m).
Proof.
  intros Hm t. unfold call. specialize (Hm (agent t)).
  destruct (m (agent t)) as [[a|e] st']; cbn [snd agent keyboard] in *;
    (split; [now exists ops | auto]).
Qed.

Lemma add_task_split b description st :
  add_task b description st
  = match analyze_task_description b description st with
    | (Return analysis, st') => finish_add b description analysis st'
    | (Raise e, st') => (Raise e, st')
    end.
Proof. reflexivity. Qed.

Lemma add_task_shown_agent b description t :
  agent (snd (add_task_shown b description t))
  = step b (agent t) (Add description) /\
  keyboard (snd (add_task_shown b description t)) = keyboard t.
Proof.
  unfold step. cbn [run_op]. rewrite add_task_split.
  unfold add_task_shown, tbind, call.
  destruct (analyze_task_description b description (agent t))
    as [[analysis|e] st1]; cbn [agent keyboard snd]; [|auto].
  destruct b; cbn [print tret agent keyboard screen];
    destruct (finish_add _ description analysis st1) as [[r|e] st2];
    cbn [agent keyboard snd]; auto.
Qed.

Lemma tame_add_task_shown b description : tame b (add_task_shown b description).
Proof.
  intros t. destruct (add_task_shown_agent b description t) as [Ha Hk].
  split; [now exists [Add description] | rewrite Hk; auto].
Qed.

Lemma tame_py_int b s : tame b (py_int s).
Proof.
  unfold py_int. destruct (_ && _)%bool; [apply tame_tret | apply tame_traise].
Qed.

Lemma tame_press_enter b : tame b press_enter.
Proof.
  apply tame_tbind; [apply tame_input | intros; apply tame_tret].
Qed.

Lemma tame_turn b choice : tame b (turn b choice).
Proof.
  unfold turn.
  repeat match goal with
         | |- tame _ (if String.eqb ?a ?c then _ else _) =>
             destruct (String.eqb a c)
         | |- tame _ (if py_isdigit ?s then _ else _) =>
             destruct (py_isdigit s)
         | |- tame _ (tbind _ _) => apply tame_tbind; [|intros]
         | |- tame _ (print _) => apply tame_print
         | |- tame _ (input _) => apply tame_input
         | |- tame _ (tret _) => apply tame_tret
         | |- tame _ (py_int _) => apply tame_py_int
         | |- tame _ (add_task_shown _ _) => apply tame_add_task_shown
         | |- tame _ (call display_tasks) =>
             apply (tame_call b display_tasks []); intros;
             apply display_tasks_state
         | |- tame _ (call (get_smart_recommendations _)) =>
             apply (tame_call b _ [Recommend]); intros; reflexivity
         | |- tame _ (call (generate_progress_report _)) =>
             apply (tame_call b _ [Report]); intros; reflexivity
         | |- tame _ (call (complete_task ?n)) =>
             apply (tame_call b _ [Complete n]); intros; reflexivity
         end.
Qed.

Lemma tame_guarded_turn b choice : tame b (guarded_turn b choice).
Proof.
  unfold guarded_turn. apply tame_try_all.
  - apply tame_tbind; [apply tame_turn|]. intros [|]; [apply tame_tret|].
    apply tame_tbind; [apply tame_press_enter | intros; apply tame_tret].
  - intros x. apply tame_tbind; [apply tame_print|]. intros _.
    apply tame_tbind; [apply tame_press_enter | intros; apply tame_tret].
Qed.

Lemma display_menu_run t :
  display_menu t
  = match keyboard t with
    | [] => (Err EOFError, mkTerminal (agent t) [] (screen t ++ menu_events))
    | choice :: rest =>
        (Ok choice, mkTerminal (agent t) rest (screen t ++ menu_events))
    end.
Proof.
  unfold display_menu, tbind, print, input, menu_events.
  cbn [agent keyboard screen].
  rewrite <- !app_assoc. cbn [app].
  now destruct (keyboard t).
Qed.

Lemma tame_display_menu b : tame b display_menu.
Proof.
  intros t. rewrite display_menu_run.
  destruct (keyboard t); cbn [snd agent keyboard]; (split; [now exists [] |]);
    simpl; lia.
Qed.

Lemma tame_main_loop b fuel : tame b (main_loop b fuel).
Proof.
  induction fuel as [|f IH]; [apply tame_tret|].
  cbn [main_loop]. apply tame_tbind; [apply tame_display_menu|]. intros choice.
  apply tame_tbind; [apply tame_guarded_turn|]. intros [|];
    [apply tame_tret | exact IH].
Qed.

(** Nothing but [EOFError] leaves the [try] statement. *)
Lemma guarded_turn_result b choice t x :
  fst (guarded_turn b choice t) = Err x -> x = EOFError.
Proof.
  unfold guarded_turn, try_all.
  destruct (tbind (turn b choice) _ t) as [[stop|x0] t1]; [discriminate|].
  unfold tbind, print, press_enter, tbind, input, tret.
  cbn [agent keyboard screen].
  destruct (keyboard t1); cbn [fst]; [now intros [= <-] | discriminate].
Qed.

Lemma main_loop_step b f t :
  main_loop b (S f) t
  = match display_menu t with
    | (Ok choice, t1) =>
        match guarded_turn b choice t1 with
        | (Ok stop, t2) => if stop then (Ok Quit, t2) else main_loop b f t2
        | (Err x, t2) => (Err x, t2)
        end
    | (Err x, t1) => (Err x, t1)
    end.
Proof.
  cbn [main_loop]. unfold tbind.
  destruct (display_menu t) as [[choice|x] t1]; [|reflexivity].
  destruct (guarded_turn b choice t1) as [[[|]|x] t2]; reflexivity.
Qed.

Lemma main_loop_ends b fuel : forall t,
  List.length (keyboard t) < fuel ->
  fst (main_loop b fuel t) = Ok Quit \/ fst (main_loop b fuel t) = Err EOFError.
Proof.
  induction fuel as [|f IH]; intros t Hfuel; [lia|].
  rewrite main_loop_step, display_menu_run.
  destruct (keyboard t) as [|choice rest] eqn:Ek; [now right|].
  set (t1 := mkTerminal (agent t) rest (screen t ++ menu_events)).
  pose proof (guarded_turn_result b choice t1) as Hres.
  destruct (tame_guarded_turn b choice t1) as [_ Hkb].
  destruct (guarded_turn b choice t1) as [[stop|x] t2]; cbn [fst snd] in *.
  - destruct stop; [now left|].
    apply IH. cbn [keyboard t1] in Hkb. simpl in Hfuel. lia.
  - right. now rewrite (Hres x eq_refl).
Qed.

End MenuFacts.

Section TurnFacts.

Context {H : Host} {C : Console}.

(** What the [try] statement adds to a turn: the agent is as the turn left
    it, nothing is wiped off the screen, and what the turn raised is
    reported there. *)
Lemma guarded_turn_after b choice t r t1 :
  turn b choice t = (r, t1) ->
  agent (snd (guarded_turn b choice t)) = agent t1 /\
  (forall ev, In ev (screen t1) ->
              In ev (screen (snd (guarded_turn b choice t)))) /\
  (forall x, r = Err x ->
             In (Printed ("An error occurred: " ++ describe x))
                (screen (snd (guarded_turn b choice t)))).
Proof.
  intros Hturn.
  remember (guarded_turn b choice t) as g eqn:Eg.
  unfold guarded_turn, try_all, tbind at 1 in Eg. rewrite Hturn in Eg.
  unfold press_enter, tbind, print, input, tret in Eg.
  destruct r as [[|]|x]; cbn [agent keyboard screen] in Eg;
    [|destruct (keyboard t1)|destruct (keyboard t1)];
    subst g; cbn [agent keyboard screen snd];
    (split; [reflexivity|]);
    (split;
     [ intros ev Hev; repeat (apply in_or_app; left); exact Hev
     | intros x' Hx'; try discriminate Hx'; injection Hx' as <-;
       apply in_or_app; left; apply in_or_app; right; now left ]).
Qed.

Lemma turn_five_run b t typed rest listing :
  display_tasks (agent t) = (Return listing, agent t) ->
  keyboard t = typed :: rest ->
  turn b "5" t
  = let shown := (screen t ++ [ Printed (nl ++ "Current Tasks:");
                                Printed listing;
                                Asked "Enter task ID to mark as complete: " ])%list in
    if py_isdigit typed then
      if all_chars is_decimal_char typed && int_accepts typed then
        match complete_task (digits_value 0 typed) (agent t) with
        | (Return r, st') =>
            (Ok false, mkTerminal st' rest (shown ++ [Printed r]))
        | (Raise e, st') => (Err (Agent e), mkTerminal st' rest shown)
        end
      else (Err (ValueError (int_error typed)), mkTerminal (agent t) rest shown)
    else (Ok false,
          mkTerminal (agent t) rest
                     (shown ++ [Printed "Please enter a valid task ID"])).
Proof.
  intros Hshow Hkb. cbv zeta.
  change (turn b "5")
    with (tbind (print (nl ++ "Current Tasks:")) (fun _ =>
          tbind (call display_tasks) (fun listing =>
          tbind (print listing) (fun _ =>
          tbind (input "Enter task ID to mark as complete: ") (fun task_id =>
          tbind (if py_isdigit task_id
                 then tbind (py_int task_id) (fun n =>
                      tbind (call (complete_task n)) (fun result =>
                      print result))
                 else print "Please enter a valid task ID")
                (fun _ => tret false)))))).
  unfold tbind at 1 2. unfold print at 1, call at 1.
  cbn [agent keyboard screen]. rewrite Hshow.
  unfold tbind at 1. unfold print at 1. cbn [agent keyboard screen].
  unfold tbind at 1. unfold input at 1. cbn [agent keyboard screen].
  rewrite Hkb, <- !app_assoc. cbn [app].
  unfold tbind at 1.
  destruct (py_isdigit typed).
  - unfold tbind at 1, py_int.
    destruct (all_chars is_decimal_char typed && int_accepts typed)%bool;
      [|reflexivity].
    unfold tret at 1, tbind at 1, call. cbn [agent keyboard screen].
    destruct (complete_task (digits_value 0 typed) (agent t))
      as [[r|e] st']; [|reflexivity].
    unfold print, tret. cbn [agent keyboard screen].
    now rewrite <- app_assoc.
  - unfold print, tret. cbn [agent keyboard screen].
    now rewrite <- app_assoc.
Qed.

Lemma turn_five_blocked b t e :
  display_tasks (agent t) = (Raise e, agent t) ->
  turn b "5" t
  = (Err (Agent e),
     mkTerminal (agent t) (keyboard t)
                (screen t ++ [Printed (nl ++ "Current Tasks:")])).
Proof.
  intros Hshow.
  change (turn b "5")
    with (tbind (print (nl ++ "Current Tasks:")) (fun _ =>
          tbind (call display_tasks) (fun listing =>
          tbind (print listing) (fun _ =>
          tbind (input "Enter task ID to mark as complete: ") (fun task_id =>
          tbind (if py_isdigit task_id
                 then tbind (py_int task_id) (fun n =>
                      tbind (call (complete_task n)) (fun result =>
                      print result))
                 else print "Please enter a valid task ID")
                (fun _ => tret false)))))).
  unfold tbind at 1 2. unfold print at 1, call at 1.
  cbn [agent keyboard screen]. now rewrite Hshow.
Qed.

Lemma display_tasks_pair st r : fst (display_tasks st) = r -> display_tasks st = (r, st).
Proof.
  intros <-. rewrite <- (display_tasks_state st) at 3.
  now destruct (display_tasks st).
Qed.

End TurnFacts.
(** * The claims *)

(** ** The task store *)

Section StoreClaims.

Context {H : Host}.

(** C8: when the backing document is absent, [load_tasks] returns the empty
    list instead of failing, and that is the only failure it tolerates: a
    file that cannot be opened for another reason and a file that does not
    hold JSON both make it raise; a file that holds JSON is returned as read. *)
Theorem load_tasks_tolerates_absence_only (st : state) :
  (disk st = Absent -> load_tasks st = (Return (JArr []), st)) /\
  (disk st = Locked -> load_tasks st = (Raise PermissionError, st)) /\
  (forall text, disk st = Present text -> json_loads text = None ->
     load_tasks st = (Raise JSONDecodeError, st)) /\
  (forall text v, disk st = Present text -> json_loads text = Some v ->
     load_tasks st = (Return v, st)).
Proof.
  rewrite load_tasks_run. unfold loads. repeat split.
  - now intros ->.
  - now intros ->.
  - intros text -> Hbad. now rewrite Hbad.
  - intros text v -> Hok. now rewrite Hok.
Qed.


End StoreClaims.

Lemma load_tasks_tolerates_absence_only_witness :
  load_tasks (H := Demo.host) Demo.fresh = (Return (JArr []), Demo.fresh) /\
  load_tasks (H := Demo.host) Demo.stuck = (Raise PermissionError, Demo.stuck) /\
  load_tasks (H := Demo.host) Demo.garbled = (Raise JSONDecodeError, Demo.garbled) /\
  load_tasks (H := Demo.host) Demo.busy
  = (Return (JArr [Demo.write_spec; Demo.ship_it]), Demo.busy).
Proof.
  split; [|split; [|split]].
  - apply (load_tasks_tolerates_absence_only (H := Demo.host) Demo.fresh).
    reflexivity.
  - apply (load_tasks_tolerates_absence_only (H := Demo.host) Demo.stuck).
    reflexivity.
  - eapply (load_tasks_tolerates_absence_only (H := Demo.host) Demo.garbled);
      reflexivity.
  - eapply (load_tasks_tolerates_absence_only (H := Demo.host) Demo.busy);
      [reflexivity | vm_compute; reflexivity].
Defined.


(** ** The insight generator *)

Section InsightClaims.

Context {H : Host}.

(** C7: on the empty collection [get_smart_recommendations] returns the
    fixed message and sends nothing; on a non-empty collection of task
    records it sends exactly one request, whose prompt lists one line per
    task, and returns the text of the reply as it is. *)
Theorem recommendations_short_circuit_on_empty
    (b : binding) (st : state) (ts : list json) :
  tasks st = JArr ts ->
  forallb listable ts = true ->
  (ts = [] ->
   get_smart_recommendations b st = (Return no_tasks_message, st)) /\
  (ts <> [] ->
   exists lines,
     for_each task_line ts = Return lines /\
     List.length lines = List.length ts /\
     let r := request_of b (recommendations_prompt (join nl lines)) in
     outbox (snd (get_smart_recommendations b st)) = (outbox st ++ [r])%list /\
     forall text,
       provider (List.length (outbox st)) r = Some text ->
       fst (get_smart_recommendations b st) = Return text).
Proof.
  intros Hts Hall. rewrite get_smart_recommendations_run, Hts. split.
  - now intros ->.
  - intros Hne. destruct ts as [|t ts]; [contradiction|].
    destruct (for_each_task_line (t :: ts) Hall) as (lines & El & Hlen).
    exists lines. split; [exact El|]. split; [exact Hlen|].
    cbv zeta. cbn [py_truthy negb py_iter]. rewrite El, create_message_run.
    split; [reflexivity|]. intros text Hreply. simpl. now rewrite Hreply.
Qed.

(** C9: [get_smart_recommendations] and [generate_progress_report] leave
    the collection, the history, the backing document and the clock as they
    were; all they do to the world is send at most one request. *)
Theorem insights_are_read_only (b : binding) (st : state) :
  (same_but_outbox st (snd (get_smart_recommendations b st)) /\
   exists rs, outbox (snd (get_smart_recommendations b st)) = (outbox st ++ rs)%list
              /\ List.length rs <= 1) /\
  (same_but_outbox st (snd (generate_progress_report b st)) /\
   exists rs, outbox (snd (generate_progress_report b st)) = (outbox st ++ rs)%list
              /\ List.length rs <= 1).
Proof.
  assert (Hnone : forall r : outcome string,
    same_but_outbox st (snd (r, st)) /\
    exists rs, outbox (snd (r, st)) = (outbox st ++ rs)%list /\ List.length rs <= 1).
  { intros r. split; [now repeat split|]. exists []. simpl.
    now rewrite app_nil_r; auto. }
  assert (Hone : forall prompt,
    same_but_outbox st (snd (create_message b prompt st)) /\
    exists rs, outbox (snd (create_message b prompt st)) = (outbox st ++ rs)%list
               /\ List.length rs <= 1).
  { intros prompt. rewrite create_message_run. split; [now repeat split|].
    exists [request_of b prompt]. simpl. auto. }
  split.
  - rewrite get_smart_recommendations_run.
    destruct (negb (py_truthy (tasks st))); [apply Hnone|].
    destruct (py_iter (tasks st)) as [items|e]; [|apply Hnone].
    destruct (for_each task_line items); [apply Hone | apply Hnone].
  - rewrite generate_progress_report_run.
    destruct (py_iter (tasks st)) as [items|e]; [|apply Hnone].
    destruct (select (has_status "completed") items); [|apply Hnone].
    destruct (select (has_status "pending") items); [apply Hone | apply Hnone].
Qed.

End InsightClaims.

Lemma recommendations_short_circuit_on_empty_witness :
  get_smart_recommendations (H := Demo.host) OpenAI Demo.fresh
  = (Return no_tasks_message, Demo.fresh) /\
  exists lines,
    for_each (task_line (H := Demo.host)) [Demo.write_spec; Demo.ship_it]
    = Return lines /\
    List.length lines = 2 /\
    let r := request_of Claude (recommendations_prompt (join nl lines)) in
    outbox (snd (get_smart_recommendations (H := Demo.host) Claude Demo.busy))
    = [r] /\
    forall text,
      Demo.helpful 0 r = Some text ->
      fst (get_smart_recommendations (H := Demo.host) Claude Demo.busy)
      = Return text.
Proof.
  split.
  - apply (recommendations_short_circuit_on_empty (H := Demo.host)
             OpenAI Demo.fresh []); reflexivity.
  - apply (recommendations_short_circuit_on_empty (H := Demo.host)
             Claude Demo.busy [Demo.write_spec; Demo.ship_it]);
      [reflexivity | reflexivity | discriminate].
Defined.

(** ** Adding a task *)

Section AddClaims.

Context {H : Host}.



End AddClaims.



(** ** Completing a task *)

Section CompleteClaims.

Context {H : Host}.

(** C2: when the first task carrying the id (the only one, when ids are
    unique) is pending, [complete_task] leaves it with status completed and
    a [completed_at] string, and appends the entry with action [complete]
    and that id to the history; when every task carries another id, it
    answers "Task not found" and changes nothing at all. *)
Theorem complete_task_marks_or_reports
    (task_id : Z) (st : state) (ts : list json) :
  tasks st = JArr ts ->
  (forall pre d post,
     ts = (pre ++ JObj d :: post)%list ->
     forallb (skips task_id) pre = true ->
     matches task_id (JObj d) = true ->
     dict_get "status" d = Some (JStr "pending") ->
     exists d',
       tasks (snd (complete_task task_id st)) = JArr (pre ++ JObj d' :: post) /\
       dict_get "status" d' = Some (JStr "completed") /\
       dict_get "completed_at" d' = Some (JStr (isoformat_now (ticks st))) /\
       task_history (snd (complete_task task_id st))
       = (task_history st
          ++ [history_entry task_id (isoformat_now (S (ticks st)))])%list) /\
  (forallb (skips task_id) ts = true ->
   complete_task task_id st = (Return not_found_message, st)).
Proof.
  intros Hts. split.
  - intros pre d post Hsplit Hpre Hm _. subst ts.
    rewrite (complete_task_hit task_id st pre d post Hts Hpre Hm).
    exists (mark_completed (isoformat_now (ticks st)) d).
    cbn [snd completed_state tasks task_history].
    split; [reflexivity|].
    split; [apply mark_completed_status|].
    split; [apply mark_completed_stamp | reflexivity].
  - intros Hall. now apply (complete_task_miss task_id st ts).
Qed.

(** C10: [complete_task] touches the first task carrying the id and no
    other: the tasks before and after it, a later task with the same id
    among them, stay as they are; and in the task it marks only [status] and
    [completed_at] are written, every other field keeping its value. *)
Theorem complete_task_frame
    (task_id : Z) (st : state) (pre : list json) (d : list (string * json))
    (post : list json) :
  tasks st = JArr (pre ++ JObj d :: post) ->
  forallb (skips task_id) pre = true ->
  matches task_id (JObj d) = true ->
  exists d',
    tasks (snd (complete_task task_id st)) = JArr (pre ++ JObj d' :: post) /\
    (forall k, k <> "status" -> k <> "completed_at" ->
               dict_get k d' = dict_get k d) /\
    Forall (fun k => dict_get k d' = dict_get k d) untouched_fields.
Proof.
  intros Hts Hpre Hm.
  rewrite (complete_task_hit task_id st pre d post Hts Hpre Hm).
  exists (mark_completed (isoformat_now (ticks st)) d).
  split; [reflexivity|]. split.
  - intros k Hs Hc. now apply mark_completed_other.
  - unfold untouched_fields.
    repeat constructor; apply mark_completed_other; discriminate.
Qed.

End CompleteClaims.

Lemma complete_task_marks_or_reports_witness :
  (exists d',
     tasks (snd (complete_task (H := Demo.host) 1 Demo.busy))
     = JArr ([] ++ JObj d' :: [Demo.ship_it]) /\
     dict_get "status" d' = Some (JStr "completed") /\
     dict_get "completed_at" d' = Some (JStr (Demo.clock 0)) /\
     task_history (snd (complete_task (H := Demo.host) 1 Demo.busy))
     = [history_entry 1 (Demo.clock 1)]) /\
  complete_task (H := Demo.host) 7 Demo.busy
  = (Return not_found_message, Demo.busy).
Proof.
  split.
  - eapply (proj1 (complete_task_marks_or_reports (H := Demo.host) 1 Demo.busy
                     [Demo.write_spec; Demo.ship_it] eq_refl)
              [] _ [Demo.ship_it]); reflexivity.
  - apply (complete_task_marks_or_reports (H := Demo.host) 7 Demo.busy
             [Demo.write_spec; Demo.ship_it] eq_refl).
    reflexivity.
Defined.

Lemma complete_task_frame_witness :
  exists d',
    tasks (snd (complete_task (H := Demo.host) 2
                  (mkState (JArr [Demo.write_spec; Demo.ship_it; Demo.ship_it])
                           [] Absent 0 [])))
    = JArr ([Demo.write_spec] ++ JObj d' :: [Demo.ship_it]) /\
    (forall k, k <> "status" -> k <> "completed_at" ->
               field k (JObj d') = field k Demo.ship_it) /\
    Forall (fun k => field k (JObj d') = field k Demo.ship_it) untouched_fields.
Proof.
  eapply (complete_task_frame (H := Demo.host) 2
            (mkState (JArr [Demo.write_spec; Demo.ship_it; Demo.ship_it])
                     [] Absent 0 [])
            [Demo.write_spec] _ [Demo.ship_it]); reflexivity.
Defined.

(** ** Ids and status over a session *)

Section SessionClaims.

Context {H : Host}.

(** C4: in a collection built by [add_task] alone from the empty one, the
    ids are 1, 2, ..., len in order, so no id occurs twice; the id given to
    the next task is [len + 1], which no task carries yet, and after the
    addition exactly one task carries it. *)
Theorem ids_never_collide (b : binding) (st : state) :
  built_by_add b st ->
  exists ts,
    tasks st = JArr ts /\
    ids_in_sequence ts /\
    (forall n, count_id n ts <= 1) /\
    unused_id (next_id ts) ts = true /\
    forall description task,
      tasks (step b st (Add description)) = JArr (ts ++ [task]) ->
      field "id" task = Some (JInt (Z.of_nat (List.length ts) + 1)) /\
      count_id (next_id ts) (ts ++ [task]) = 1.
Proof.
  intros Hbuilt.
  destruct (built_by_add_in_sequence b st Hbuilt) as (ts & Hts & Hseq).
  exists ts. split; [exact Hts|]. split; [exact Hseq|].
  split.
  { intros n. rewrite (ids_in_sequence_count ts n Hseq).
    destruct (_ && _)%bool; lia. }
  pose proof (ids_in_sequence_next_unused ts Hseq) as Hfree.
  split; [exact Hfree|].
  intros description task Hnew.
  assert (Hid : field "id" task = Some (JInt (next_id ts))).
  { destruct (step_shape b st (Add description) ts Hts)
      as [Hsame | [(dsc & task' & _ & Hid & Hnew')
                  | (n & pre & d & post & Hop & _)]].
    - rewrite Hsame in Hnew. injection Hnew as Hnew.
      apply (f_equal (@List.length json)) in Hnew.
      rewrite length_app in Hnew. simpl in Hnew. lia.
    - rewrite Hnew' in Hnew. injection Hnew as Hnew.
      apply app_inj_tail in Hnew as [_ ->]. exact Hid.
    - discriminate. }
  split; [exact Hid|].
  rewrite count_id_app, (count_id_unused _ _ Hfree).
  unfold count_id. cbn [filter].
  rewrite (matches_int_id _ _ _ Hid), Z.eqb_refl. reflexivity.
Qed.

End SessionClaims.

Lemma ids_never_collide_witness :
  exists ts,
    tasks (run (H := Demo.host) OpenAI [Add "Write spec"; Add "Ship it"]
               Demo.fresh) = JArr ts /\
    ids_in_sequence ts /\
    (forall n, count_id n ts <= 1) /\
    unused_id (next_id ts) ts = true /\
    forall description task,
      tasks (step (H := Demo.host) OpenAI
                  (run (H := Demo.host) OpenAI [Add "Write spec"; Add "Ship it"]
                       Demo.fresh)
                  (Add description)) = JArr (ts ++ [task]) ->
      field "id" task = Some (JInt (Z.of_nat (List.length ts) + 1)) /\
      count_id (next_id ts) (ts ++ [task]) = 1.
Proof.
  apply (ids_never_collide (H := Demo.host) OpenAI).
  apply (built_add (H := Demo.host)). apply (built_add (H := Demo.host)).
  apply built_empty. reflexivity.
Defined.

Section StatusClaims.

Context {H : Host}.

(** C3, as the code has it: a completed task stays completed, and in its
    place, under every later sequence of operations, which can change none
    of its fields but [completed_at]; [completed_at] itself is left alone by
    every operation except a completion of a task of that id; and every
    completion that finds a task, first or repeated, writes the time of the
    call into its [completed_at]. *)
Theorem completion_is_permanent
    (b : binding) (ops : list op) (st : state) (ts : list json) (i : nat)
    (t : json) :
  tasks st = JArr ts ->
  nth_error ts i = Some t ->
  field "status" t = Some (JStr "completed") ->
  (exists ts' t',
     tasks (run b ops st) = JArr ts' /\
     nth_error ts' i = Some t' /\
     field "status" t' = Some (JStr "completed") /\
     (forall k, k <> "completed_at" -> field k t' = field k t) /\
     (Forall (fun o => forall n, o = Complete n -> matches n t = false) ops ->
      t' = t)) /\
  (forall n pre d post,
     ts = (pre ++ JObj d :: post)%list ->
     forallb (skips n) pre = true ->
     matches n (JObj d) = true ->
     exists d',
       tasks (step b st (Complete n)) = JArr (pre ++ JObj d' :: post) /\
       dict_get "status" d' = Some (JStr "completed") /\
       dict_get "completed_at" d' = Some (JStr (isoformat_now (ticks st)))).
Proof.
  intros Hts Hnth Hdone. split.
  - revert st ts t Hts Hnth Hdone.
    induction ops as [|o ops IH]; intros st ts t Hts Hnth Hdone.
    + exists ts, t. auto.
    + destruct (step_keeps_completed b st o ts i t Hts Hnth Hdone)
        as (ts1 & t1 & Hts1 & Hnth1 & Hdone1 & Hfields1 & Hsame1).
      destruct (IH (step b st o) ts1 t1 Hts1 Hnth1 Hdone1)
        as (ts' & t' & Hts' & Hnth' & Hdone' & Hfields' & Hsame').
      exists ts', t'. split; [exact Hts'|]. split; [exact Hnth'|].
      split; [exact Hdone'|]. split.
      * intros k Hk. now rewrite Hfields', Hfields1.
      * intros Hall. inversion Hall as [|o' ops' Ho Hops]; subst.
        specialize (Hsame1 Ho). subst t1. now apply Hsame'.
  - intros n pre d post Hsplit Hpre Hm. subst ts.
    unfold step. cbn [run_op].
    rewrite (complete_task_hit n st pre d post Hts Hpre Hm).
    exists (mark_completed (isoformat_now (ticks st)) d).
    split; [reflexivity|].
    split; [apply mark_completed_status | apply mark_completed_stamp].
Qed.

End StatusClaims.

(** C3, as the specification words it, fails: completing a completed task
    again moves its [completed_at] from the time of the first call to the
    time of the second. *)
Lemma completed_at_is_not_final : ~ completed_at_is_final.
Proof.
  intros Hfinal.
  destruct (Hfinal Demo.host OpenAI Demo.fresh
              [Add "Write spec"; Complete 1] (Complete 1)
              [Demo.done_at (Demo.clock 1)] 0 (Demo.done_at (Demo.clock 1)))
    as (ts' & t' & Hts' & Hnth' & Hsame); try reflexivity.
  assert (Hrun : tasks (step (H := Demo.host) OpenAI
                          (run (H := Demo.host) OpenAI
                               [Add "Write spec"; Complete 1] Demo.fresh)
                          (Complete 1))
                 = JArr [Demo.done_at (Demo.clock 3)])
    by (vm_compute; reflexivity).
  rewrite Hrun in Hts'. injection Hts' as <-.
  simpl in Hnth'. injection Hnth' as <-.
  change (Some (JStr (Demo.clock 3)) = Some (JStr (Demo.clock 1))) in Hsame.
  injection Hsame as Hsame. discriminate Hsame.
Qed.

Lemma completion_is_permanent_witness :
  (exists ts' t',
     tasks (run (H := Demo.host) Claude [Add "Refactor module"; Complete 1; Report]
                Demo.busy) = JArr ts' /\
     nth_error ts' 1 = Some t' /\
     field "status" t' = Some (JStr "completed") /\
     (forall k, k <> "completed_at" -> field k t' = field k Demo.ship_it) /\
     (Forall (fun o => forall n, o = Complete n -> matches n Demo.ship_it = false)
             [Add "Refactor module"; Complete 1; Report] ->
      t' = Demo.ship_it)) /\
  (forall n pre d post,
     [Demo.write_spec; Demo.ship_it] = (pre ++ JObj d :: post)%list ->
     forallb (skips n) pre = true ->
     matches n (JObj d) = true ->
     exists d',
       tasks (step (H := Demo.host) Claude Demo.busy (Complete n))
       = JArr (pre ++ JObj d' :: post) /\
       dict_get "status" d' = Some (JStr "completed") /\
       dict_get "completed_at" d' = Some (JStr (Demo.clock 0))).
Proof.
  apply (completion_is_permanent (H := Demo.host) Claude
           [Add "Refactor module"; Complete 1; Report] Demo.busy
           [Demo.write_spec; Demo.ship_it] 1 Demo.ship_it);
    reflexivity.
Defined.

(** ** Further properties *)



Section Extras.

Context {H : Host}.

(** X2: when the file cannot be written, [add_task] raises only after it
    has appended the task: the collection in memory has the new task, the
    document has not. *)
Theorem add_task_on_locked_store
    (b : binding) (description text : string) (analysis task : json)
    (st : state) (ts : list json) :
  tasks st = JArr ts ->
  disk st = Locked ->
  provider (List.length (outbox st))
           (request_of b (analysis_prompt description)) = Some text ->
  json_loads text = Some analysis ->
  assemble b (List.length ts) description (isoformat_now (ticks st)) analysis
  = Return task ->
  fst (add_task b description st) = Raise PermissionError /\
  tasks (snd (add_task b description st)) = JArr (ts ++ [task]) /\
  disk (snd (add_task b description st)) = Locked.
Proof.
  intros Hts Hdisk Hreply Hload Htask.
  rewrite add_task_run. cbv zeta.
  rewrite Hreply, Hload, Hts. cbn [py_len py_append].
  rewrite Htask, Hdisk. now repeat split.
Qed.

(** X3: a record that has no id, or is no dict, standing before any match
    makes [complete_task] raise with nothing changed. *)
Theorem complete_task_stops_at_bad_record
    (task_id : Z) (st : state) (pre : list json) (t : json)
    (post : list json) (e : exn) :
  tasks st = JArr (pre ++ t :: post) ->
  forallb (skips task_id) pre = true ->
  py_getitem t "id" = Raise e ->
  complete_task task_id st = (Raise e, st).
Proof.
  intros Hts Hpre Hbad.
  unfold complete_task, bind, get, lift. rewrite Hts. cbn [py_iter].
  change 0 with (List.length (@nil json)).
  rewrite (complete_scan_prefix task_id pre [] _ st Hpre).
  now apply complete_scan_fault.
Qed.

End Extras.

Lemma add_task_on_locked_store_witness :
  fst (add_task (H := Demo.host) OpenAI "Refactor module" Demo.stuck)
  = Raise PermissionError /\
  tasks (snd (add_task (H := Demo.host) OpenAI "Refactor module" Demo.stuck))
  = JArr ([Demo.write_spec; Demo.ship_it]
          ++ [new_task 2 "Refactor module" (Demo.clock 0) (JStr "high")
                       (JInt 2) (JStr "writing")
                       (JArr [JStr "Outline"; JStr "Draft"])]) /\
  disk (snd (add_task (H := Demo.host) OpenAI "Refactor module" Demo.stuck))
  = Locked.
Proof.
  eapply (add_task_on_locked_store (H := Demo.host) OpenAI "Refactor module"
            (Demo.analysis_reply "estimated_time")
            (JObj [ ("priority", JStr "high"); ("estimated_time", JInt 2);
                    ("category", JStr "writing");
                    ("potential_subtasks",
                     JArr [JStr "Outline"; JStr "Draft"]) ])
            _ Demo.stuck [Demo.write_spec; Demo.ship_it]).
  - reflexivity.
  - reflexivity.
  - reflexivity.
  - vm_compute. reflexivity.
  - reflexivity.
Defined.

Lemma complete_task_stops_at_bad_record_witness :
  complete_task (H := Demo.host) 2
    (mkState (JArr [Demo.write_spec; JObj [("description", JStr "No id")];
                    Demo.ship_it]) [] Absent 0 [])
  = (Raise (KeyError "id"),
     mkState (JArr [Demo.write_spec; JObj [("description", JStr "No id")];
                    Demo.ship_it]) [] Absent 0 []).
Proof.
  apply (complete_task_stops_at_bad_record (H := Demo.host) 2 _
           [Demo.write_spec] (JObj [("description", JStr "No id")])
           [Demo.ship_it]); reflexivity.
Defined.

(** ** More on the reports *)

Section ReportExtras.

Context {H : Host}.

(** X4: [generate_progress_report] has no short cut for an empty
    collection: on every list of records that have a status, the empty list
    among them, it sends exactly one request, whose prompt counts the
    records with status completed and with status pending, and returns the
    reply as it is. *)
Theorem report_always_asks (b : binding) (st : state) (ts : list json) :
  tasks st = JArr ts ->
  forallb (has_field "status") ts = true ->
  let r := request_of b
             (report_prompt
                (report_context (filter (status_is "completed") ts)
                                (filter (status_is "pending") ts) (JArr ts))) in
  generate_progress_report b st
  = (match provider (List.length (outbox st)) r with
     | Some text => Return text
     | None => Raise APIError
     end, sent r st).
Proof.
  intros Hts Hall. cbv zeta.
  rewrite generate_progress_report_run, Hts. cbn [py_iter].
  rewrite !select_has_status by exact Hall.
  apply create_message_run.
Qed.

(** X5: a record that is no dict, or lacks one of the keys the prompt lists,
    makes [get_smart_recommendations] raise a [KeyError] or [TypeError]
    before anything is sent: the state, outbox included, is unchanged. *)
Theorem recommendations_need_complete_records
    (b : binding) (st : state) (ts : list json) (t : json) :
  tasks st = JArr ts ->
  In t ts ->
  listable t = false ->
  exists e,
    get_smart_recommendations b st = (Raise e, st) /\ lookup_error e.
Proof.
  intros Hts Hin Hbad.
  rewrite get_smart_recommendations_run, Hts.
  destruct ts as [|t0 ts']; [contradiction|].
  cbn [py_truthy negb py_iter].
  destruct (for_each_raises task_line (t0 :: ts') t Hin
              (task_line_unlistable t Hbad)) as [e He].
  rewrite He. exists e. split; [reflexivity|].
  destruct (for_each_raised _ _ _ He) as (x & _ & Hx).
  now apply (task_line_raises x).
Qed.

End ReportExtras.

(** ** More on completing and on sessions *)

Section SessionExtras.

Context {H : Host}.

(** X6: when the file cannot be written, [complete_task] raises only after
    it has marked the task and logged the completion: memory has the task
    completed and the history entry, the document is untouched. *)
Theorem complete_task_on_locked_store
    (task_id : Z) (st : state) (pre : list json) (d : list (string * json))
    (post : list json) :
  tasks st = JArr (pre ++ JObj d :: post) ->
  forallb (skips task_id) pre = true ->
  matches task_id (JObj d) = true ->
  disk st = Locked ->
  fst (complete_task task_id st) = Raise PermissionError /\
  tasks (snd (complete_task task_id st))
  = JArr (pre ++ JObj (mark_completed (isoformat_now (ticks st)) d) :: post) /\
  task_history (snd (complete_task task_id st))
  = (task_history st
     ++ [history_entry task_id (isoformat_now (S (ticks st)))])%list /\
  disk (snd (complete_task task_id st)) = Locked.
Proof.
  intros Hts Hpre Hm Hdisk.
  rewrite (complete_task_hit task_id st pre d post Hts Hpre Hm).
  unfold completed_result, completed_state. rewrite Hdisk. now repeat split.
Qed.

(** X7: the message [complete_task] returns reads the description last: on
    a matching record without one the call raises [KeyError], but by then
    the record is marked completed, the history has its entry and the
    document has been rewritten. *)
Theorem complete_task_without_description
    (task_id : Z) (st : state) (pre : list json) (d : list (string * json))
    (post : list json) :
  tasks st = JArr (pre ++ JObj d :: post) ->
  forallb (skips task_id) pre = true ->
  matches task_id (JObj d) = true ->
  dict_get "description" d = None ->
  disk st <> Locked ->
  fst (complete_task task_id st) = Raise (KeyError "description") /\
  tasks (snd (complete_task task_id st))
  = JArr (pre ++ JObj (mark_completed (isoformat_now (ticks st)) d) :: post) /\
  List.length (task_history (snd (complete_task task_id st)))
  = S (List.length (task_history st)) /\
  in_sync (snd (complete_task task_id st)).
Proof.
  intros Hts Hpre Hm Hnone Hdisk.
  rewrite (complete_task_hit task_id st pre d post Hts Hpre Hm).
  unfold completed_result, completed_state, in_sync.
  rewrite mark_completed_other, Hnone by discriminate.
  cbn [fst snd tasks task_history disk].
  rewrite length_app. cbn [List.length].
  destruct (disk st); [| contradiction |]; repeat split; lia.
Qed.


(** X9: a collection that is no list (the document held an object, a string,
    a number, ...) is never repaired and never changed: every operation
    leaves it, the history and the document as they were, and every
    [add_task] raises. *)
Theorem non_list_store_is_frozen (b : binding) (ops : list op) (st : state) :
  is_list (tasks st) = false ->
  (tasks (run b ops st) = tasks st /\
   task_history (run b ops st) = task_history st /\
   disk (run b ops st) = disk st) /\
  forall description,
    raised (fst (add_task b description (run b ops st))) = true.
Proof.
  intros Hno.
  assert (Hrun : tasks (run b ops st) = tasks st /\
                 task_history (run b ops st) = task_history st /\
                 disk (run b ops st) = disk st).
  { revert st Hno. induction ops as [|o ops IH]; intros st Hno; [auto|].
    destruct (step_frozen b st o Hno) as (Ht & Hh & Hd).
    cbn [run fold_left]. fold (run b ops (step b st o)).
    destruct (IH (step b st o)) as (Ht' & Hh' & Hd'); [now rewrite Ht|].
    rewrite Ht', Hh', Hd'. auto. }
  split; [exact Hrun|]. intros description.
  apply add_task_frozen. destruct Hrun as [-> _]. exact Hno.
Qed.

(** X10: no operation of a session changes or reuses an id or removes a
    task: from a collection whose ids are 1, 2, ..., len, any sequence of
    operations ends in a collection at least as long whose ids are again
    1, 2, ..., len. *)
Theorem session_keeps_ids
    (b : binding) (ops : list op) (st : state) (ts : list json) :
  tasks st = JArr ts ->
  ids_in_sequence ts ->
  exists ts',
    tasks (run b ops st) = JArr ts' /\
    ids_in_sequence ts' /\
    List.length ts <= List.length ts' /\
    forall n, count_id n ts' <= 1.
Proof.
  intros Hts Hseq.
  destruct (run_ids_in_sequence b ops st ts Hts Hseq) as (ts' & Hts' & Hseq' & Hlen).
  exists ts'. repeat split; auto.
  intros n. rewrite (ids_in_sequence_count ts' n Hseq').
  destruct (_ && _)%bool; lia.
Qed.

(** X11: what the operations cost: [add_task] sends exactly one request
    whether it succeeds or fails, even on a collection it cannot append to;
    [complete_task] never sends any. *)
Theorem requests_per_operation
    (b : binding) (description : string) (task_id : Z) (st : state) :
  outbox (snd (add_task b description st))
  = (outbox st ++ [request_of b (analysis_prompt description)])%list /\
  outbox (snd (complete_task task_id st)) = outbox st.
Proof.
  split; [|apply complete_task_outbox].
  rewrite add_task_run. cbv zeta.
  destruct (provider _ _) as [text|]; [|reflexivity].
  destruct (json_loads text) as [analysis|]; [|reflexivity].
  destruct (py_len (tasks st)) as [n|e]; [|reflexivity].
  destruct (assemble _ _ _ _ _) as [task|e]; [|reflexivity].
  destruct (py_append (tasks st) task) as [appended|e]; [|reflexivity].
  now destruct (disk st).
Qed.

End SessionExtras.

Lemma complete_task_on_locked_store_witness :
  fst (complete_task (H := Demo.host) 1 Demo.stuck) = Raise PermissionError /\
  tasks (snd (complete_task (H := Demo.host) 1 Demo.stuck))
  = JArr ([] ++ JObj (mark_completed (Demo.clock 0)
                        [ ("id", JInt 1);
                          ("description", JStr "Write spec");
                          ("created_at", JStr "2025-03-13T18:00:00.000000");
                          ("priority", JStr "high");
                          ("estimated_hours", JInt 3);
                          ("category", JStr "writing");
                          ("subtasks", JArr []);
                          ("status", JStr "pending") ])
             :: [Demo.ship_it]) /\
  task_history (snd (complete_task (H := Demo.host) 1 Demo.stuck))
  = [history_entry 1 (Demo.clock 1)] /\
  disk (snd (complete_task (H := Demo.host) 1 Demo.stuck)) = Locked.
Proof.
  apply (complete_task_on_locked_store (H := Demo.host) 1 Demo.stuck
           [] _ [Demo.ship_it]); reflexivity.
Defined.

Lemma complete_task_without_description_witness :
  let st := mkState (JArr [Demo.nameless]) [] Absent 0 [] in
  fst (complete_task (H := Demo.host) 1 st) = Raise (KeyError "description") /\
  tasks (snd (complete_task (H := Demo.host) 1 st))
  = JArr ([] ++ JObj (mark_completed (Demo.clock 0)
                        [ ("id", JInt 1); ("priority", JStr "low");
                          ("status", JStr "pending") ]) :: []) /\
  List.length (task_history (snd (complete_task (H := Demo.host) 1 st))) = 1 /\
  in_sync (H := Demo.host) (snd (complete_task (H := Demo.host) 1 st)).
Proof.
  apply (complete_task_without_description (H := Demo.host) 1
           (mkState (JArr [Demo.nameless]) [] Absent 0 []) [] _ []);
    try reflexivity.
  discriminate.
Defined.


Lemma non_list_store_is_frozen_witness :
  let ops := [Add "Refactor module"; Complete 1; Recommend] in
  (tasks (run (H := Demo.host) Claude ops Demo.odd) = tasks Demo.odd /\
   task_history (run (H := Demo.host) Claude ops Demo.odd) = [] /\
   disk (run (H := Demo.host) Claude ops Demo.odd) = disk Demo.odd) /\
  forall description,
    raised (fst (add_task (H := Demo.host) Claude description
                   (run (H := Demo.host) Claude ops Demo.odd))) = true.
Proof.
  apply (non_list_store_is_frozen (H := Demo.host) Claude
           [Add "Refactor module"; Complete 1; Recommend] Demo.odd).
  reflexivity.
Defined.

Lemma session_keeps_ids_witness :
  exists ts',
    tasks (run (H := Demo.host) OpenAI
               [Complete 2; Add "Refactor module"; Complete 1; Add "Test it"]
               Demo.busy) = JArr ts' /\
    ids_in_sequence ts' /\
    2 <= List.length ts' /\
    forall n, count_id n ts' <= 1.
Proof.
  apply (session_keeps_ids (H := Demo.host) OpenAI
           [Complete 2; Add "Refactor module"; Complete 1; Add "Test it"]
           Demo.busy [Demo.write_spec; Demo.ship_it]); reflexivity.
Defined.

(** ** Listing the tasks *)

Section DisplayExtras.

Context {H : Host}.

(** X12: [display_tasks] answers "No tasks found." on the empty list and
    otherwise one line per task, in order, each beginning with the check
    mark when the task's status is completed and with the box when it is
    anything else; it changes nothing. *)
Theorem display_tasks_lists_every_task (st : state) (ts : list json) :
  tasks st = JArr ts ->
  forallb displayable ts = true ->
  (ts = [] -> display_tasks st = (Return no_tasks_found, st)) /\
  (ts <> [] ->
   exists task_list,
     display_tasks st = (Return (join nl task_list), st) /\
     Forall2 (fun t line => String.prefix (mark_of t) line = true)
             ts task_list).
Proof.
  intros Hts Hall. rewrite display_tasks_run, Hts. split.
  - now intros ->.
  - intros Hne. destruct ts as [|t ts']; [contradiction|].
    cbn [py_truthy negb py_iter].
    destruct (for_each_display_line (t :: ts') Hall) as (lines & El & Hmarks).
    rewrite El. eauto.
Qed.

(** X13: one record that is no dict, or lacks one of status, id,
    description, priority and category, makes the whole listing raise a
    [KeyError] or [TypeError]: no task is listed, and nothing changes. *)
Theorem display_tasks_needs_complete_records
    (st : state) (ts : list json) (t : json) :
  tasks st = JArr ts ->
  In t ts ->
  displayable t = false ->
  exists e, display_tasks st = (Raise e, st) /\ lookup_error e.
Proof.
  intros Hts Hin Hbad. rewrite display_tasks_run, Hts.
  destruct ts as [|t0 ts']; [contradiction|].
  cbn [py_truthy negb py_iter].
  destruct (for_each_raises display_line (t0 :: ts') t Hin
              (display_line_undisplayable t Hbad)) as [e He].
  rewrite He. exists e. split; [reflexivity|].
  destruct (for_each_raised _ _ _ He) as (x & _ & Hx).
  now apply (display_line_raises x).
Qed.

End DisplayExtras.

Lemma display_tasks_lists_every_task_witness :
  display_tasks (H := Demo.host) Demo.fresh = (Return no_tasks_found, Demo.fresh)
  /\
  exists task_list,
    display_tasks (H := Demo.host) Demo.busy
    = (Return (join nl task_list), Demo.busy) /\
    Forall2 (fun t line => String.prefix (mark_of t) line = true)
            [Demo.write_spec; Demo.ship_it] task_list.
Proof.
  split.
  - apply (display_tasks_lists_every_task (H := Demo.host) Demo.fresh []);
      reflexivity.
  - apply (display_tasks_lists_every_task (H := Demo.host) Demo.busy
             [Demo.write_spec; Demo.ship_it]);
      [reflexivity | reflexivity | discriminate].
Defined.

Lemma display_tasks_needs_complete_records_witness :
  exists e,
    display_tasks (H := Demo.host)
      (mkState (JArr [Demo.write_spec; Demo.nameless]) [] Absent 0 [])
    = (Raise e, mkState (JArr [Demo.write_spec; Demo.nameless]) [] Absent 0 [])
    /\ lookup_error e.
Proof.
  apply (display_tasks_needs_complete_records (H := Demo.host)
           (mkState (JArr [Demo.write_spec; Demo.nameless]) [] Absent 0 [])
           [Demo.write_spec; Demo.nameless] Demo.nameless).
  - reflexivity.
  - right. left. reflexivity.
  - reflexivity.
Defined.

Lemma report_always_asks_witness :
  let r := request_of Claude
             (report_prompt
                (report_context (H := Demo.host) [] [] (JArr []))) in
  generate_progress_report (H := Demo.host) Claude Demo.fresh
  = (match Demo.helpful 0 r with
     | Some text => Return text
     | None => Raise APIError
     end, sent r Demo.fresh).
Proof.
  apply (report_always_asks (H := Demo.host) Claude Demo.fresh []);
    reflexivity.
Defined.

Lemma recommendations_need_complete_records_witness :
  exists e,
    get_smart_recommendations (H := Demo.host) OpenAI
      (mkState (JArr [Demo.write_spec; JObj [("id", JInt 2)]]) [] Absent 0 [])
    = (Raise e,
       mkState (JArr [Demo.write_spec; JObj [("id", JInt 2)]]) [] Absent 0 [])
    /\ lookup_error e.
Proof.
  apply (recommendations_need_complete_records (H := Demo.host) OpenAI
           (mkState (JArr [Demo.write_spec; JObj [("id", JInt 2)]]) [] Absent 0 [])
           [Demo.write_spec; JObj [("id", JInt 2)]] (JObj [("id", JInt 2)])).
  - reflexivity.
  - right. left. reflexivity.
  - reflexivity.
Defined.

(** ** The menu loop *)

Section MenuExtras.

Context {H : Host} {C : Console}.

(** X14: how [main] ends.  Without an API key it raises [ValueError]
    before it touches anything.  With one, a backing document that cannot
    be read makes it raise that error before the menu is ever shown.
    Otherwise the loop ends in exactly two ways, by choice 6 or by the end
    of the input: no failure of an operation ends it, and as many turns as
    there are lines to read, plus one, are all it makes. *)
Theorem main_ends (b : binding) (api_key : option string) (t : terminal) :
  (api_key = None \/ api_key = Some "" ->
   main b api_key t = (Err (ValueError (no_key_message b)), t)) /\
  (forall key e,
     api_key = Some key -> key <> "" ->
     fst (init (agent t)) = Raise e ->
     fst (main b api_key t) = Err (Agent e) /\
     screen (snd (main b api_key t)) = screen t) /\
  (forall key,
     api_key = Some key -> key <> "" ->
     fst (init (agent t)) = Return tt ->
     fst (main b api_key t) = Ok Quit \/
     fst (main b api_key t) = Err EOFError).
Proof.
  split; [|split].
  - intros [-> | ->]; reflexivity.
  - intros key e -> Hkey Hinit. unfold main.
    apply String.eqb_neq in Hkey. rewrite Hkey.
    unfold tbind, call. destruct (init (agent t)) as [[u|e'] st'];
      cbn [fst] in Hinit; [discriminate|].
    injection Hinit as ->. now split.
  - intros key -> Hkey Hinit. unfold main.
    apply String.eqb_neq in Hkey. rewrite Hkey.
    unfold tbind, call. destruct (init (agent t)) as [[u|e'] st'];
      cbn [fst] in Hinit; [|discriminate].
    apply main_loop_ends. cbn [keyboard]. lia.
Qed.



(** X17: choice 5 lists the tasks before it asks for an id, so a listing
    that raises keeps the user from completing anything: the error is
    reported, no id is asked for, the agent is untouched, and the next
    line typed is taken as the answer to "Press Enter". *)
Theorem listing_failure_blocks_completion
    (b : binding) (t : terminal) (e : exn) (line : string)
    (rest : list string) :
  fst (display_tasks (agent t)) = Raise e ->
  keyboard t = line :: rest ->
  guarded_turn b "5" t
  = (Ok false,
     mkTerminal (agent t) rest
       (screen t ++ [ Printed (nl ++ "Current Tasks:");
                      Printed ("An error occurred: " ++ exn_text e);
                      Asked (nl ++ "Press Enter to continue...") ])).
Proof.
  intros Hshow Hkb. apply display_tasks_pair in Hshow.
  unfold guarded_turn, try_all, tbind at 1.
  rewrite (turn_five_blocked b t e Hshow).
  unfold press_enter, tbind, print, input, tret.
  cbn [agent keyboard screen describe]. rewrite Hkb, <- !app_assoc.
  reflexivity.
Qed.

End MenuExtras.

Lemma main_ends_witness :
  main (H := Demo.host) (C := DemoConsole.console) OpenAI None DemoConsole.visit
  = (Err (ValueError "No API key found!!"), DemoConsole.visit) /\
  (fst (main (H := Demo.host) (C := DemoConsole.console) Claude (Some "sk-key")
          (mkTerminal Demo.garbled ["6"] []))
   = Err (Agent JSONDecodeError) /\
   screen (snd (main (H := Demo.host) (C := DemoConsole.console) Claude
                  (Some "sk-key") (mkTerminal Demo.garbled ["6"] [])))
   = []) /\
  (fst (main (H := Demo.host) (C := DemoConsole.console) OpenAI (Some "sk-key")
          DemoConsole.visit) = Ok Quit \/
   fst (main (H := Demo.host) (C := DemoConsole.console) OpenAI (Some "sk-key")
          DemoConsole.visit) = Err EOFError).
Proof.
  split; [|split].
  - apply (main_ends (H := Demo.host) (C := DemoConsole.console) OpenAI None
             DemoConsole.visit). now left.
  - apply (proj1 (proj2 (main_ends (H := Demo.host) (C := DemoConsole.console)
                           Claude (Some "sk-key")
                           (mkTerminal Demo.garbled ["6"] [])))
             "sk-key" JSONDecodeError eq_refl).
    + discriminate.
    + reflexivity.
  - apply (proj2 (proj2 (main_ends (H := Demo.host) (C := DemoConsole.console)
                           OpenAI (Some "sk-key") DemoConsole.visit))
             "sk-key" eq_refl).
    + discriminate.
    + vm_compute. reflexivity.
Defined.



Lemma listing_failure_blocks_completion_witness :
  guarded_turn (H := Demo.host) (C := DemoConsole.console) Claude "5"
    (mkTerminal (mkState (JArr [Demo.write_spec; Demo.nameless]) [] Absent 0 [])
                ["1"; ""] [])
  = (Ok false,
     mkTerminal (mkState (JArr [Demo.write_spec; Demo.nameless]) [] Absent 0 [])
       [""]
       ([] ++ [ Printed (nl ++ "Current Tasks:");
                Printed ("An error occurred: "
                         ++ DemoConsole.text_of (KeyError "description"));
                Asked (nl ++ "Press Enter to continue...") ])).
Proof.
  apply (listing_failure_blocks_completion (H := Demo.host)
           (C := DemoConsole.console) Claude
           (mkTerminal (mkState (JArr [Demo.write_spec; Demo.nameless]) []
                                Absent 0 [])
                       ["1"; ""] [])
           (KeyError "description") "1" [""]); reflexivity.
Defined.

(** ** Ids and positions *)

Section LookupExtras.

Context {H : Host}.

(** X18: in a collection whose ids are 1, 2, ..., len the id is the
    position: [complete_task] with the id [i + 1] marks the task at
    position [i] and no other, and with an id below 1 or above [len] it
    answers "Task not found" and changes nothing. *)
Theorem complete_task_finds_by_position
    (st : state) (ts : list json) :
  tasks st = JArr ts ->
  ids_in_sequence ts ->
  (forall pre t post,
     ts = (pre ++ t :: post)%list ->
     exists d,
       t = JObj d /\
       tasks (snd (complete_task (Z.of_nat (S (List.length pre))) st))
       = JArr (pre ++ JObj (mark_completed (isoformat_now (ticks st)) d)
                   :: post)) /\
  (forall n,
     (n < 1 \/ Z.of_nat (List.length ts) < n)%Z ->
     complete_task n st = (Return not_found_message, st)).
Proof.
  intros Hts Hseq. split.
  - intros pre t post Hsplit. subst ts.
    destruct (ids_from_split 1 pre t post Hseq) as [Hpre Ht].
    destruct (field_id_matches t _ Ht) as (d & -> & Hm).
    exists d. split; [reflexivity|].
    replace (Z.of_nat (S (List.length pre)))
      with (Z.of_nat (1 + List.length pre)) by (f_equal; lia).
    rewrite (complete_task_hit _ st pre d post Hts); [reflexivity | | exact Hm].
    apply (ids_from_skips 1 pre _ Hpre). lia.
  - intros n Hn. apply (complete_task_miss n st ts Hts).
    apply (ids_from_skips 1 ts n Hseq). lia.
Qed.

(** X19: a task that [add_task] has just added to such a collection is the
    one [complete_task] finds under the id it was given: the new task, and
    only it, goes from pending to completed. *)
Theorem added_task_can_be_completed
    (b : binding) (description message : string) (st : state)
    (ts : list json) :
  tasks st = JArr ts ->
  ids_in_sequence ts ->
  fst (add_task b description st) = Return message ->
  exists d,
    tasks (snd (add_task b description st)) = JArr (ts ++ [JObj d]) /\
    dict_get "status" d = Some (JStr "pending") /\
    tasks (snd (complete_task (next_id ts) (snd (add_task b description st))))
    = JArr (ts ++ [JObj (mark_completed
                           (isoformat_now
                              (ticks (snd (add_task b description st)))) d)]).
Proof.
  intros Hts Hseq Hok.
  destruct (step_shape b st (Add description) ts Hts)
    as [Hsame | [(dsc & task & _ & Hid & Hnew)
                | (n & pre & d & post & Hop & _)]]; [| |discriminate].
  - exfalso. revert Hok Hsame. unfold step. cbn [run_op].
    rewrite add_task_run. cbv zeta. rewrite Hts. cbn [py_len py_append].
    destruct (provider _ _) as [text|]; [|discriminate].
    destruct (json_loads text) as [analysis|]; [|discriminate].
    destruct (assemble _ _ _ _ _) as [task|e]; [|discriminate].
    destruct (disk st); cbn [fst snd tasks]; try discriminate;
      intros _ [= Hsame]; apply (f_equal (@List.length json)) in Hsame;
      rewrite length_app in Hsame; simpl in Hsame; lia.
  - unfold step in Hnew. cbn [run_op] in Hnew.
    assert (Hpending : field "status" task = Some (JStr "pending")).
    { revert Hok Hnew. rewrite add_task_run. cbv zeta. rewrite Hts.
      cbn [py_len py_append].
      destruct (provider _ _) as [text|]; [|discriminate].
      destruct (json_loads text) as [analysis|]; [|discriminate].
      destruct (assemble _ _ _ _ _) as [task'|e] eqn:Ea; [|discriminate].
      destruct (assemble_return _ _ _ _ _ _ Ea) as (p & est & c & s & -> & _).
      destruct (disk st); cbn [fst snd tasks]; try discriminate;
        intros _ [= Hsame]; apply app_inj_tail in Hsame as [_ <-];
        reflexivity. }
    destruct (field_id_matches task _ Hid) as (d & -> & Hm).
    exists d. split; [exact Hnew|]. split; [exact Hpending|].
    rewrite (complete_task_hit _ _ ts d [] Hnew); [reflexivity | | exact Hm].
    apply (ids_from_skips 1 ts _ Hseq). unfold next_id. lia.
Qed.

End LookupExtras.

Lemma complete_task_finds_by_position_witness :
  (forall pre t post,
     [Demo.write_spec; Demo.ship_it] = (pre ++ t :: post)%list ->
     exists d,
       t = JObj d /\
       tasks (snd (complete_task (H := Demo.host)
                     (Z.of_nat (S (List.length pre))) Demo.busy))
       = JArr (pre ++ JObj (mark_completed (Demo.clock 0) d) :: post)) /\
  (forall n,
     (n < 1 \/ 2 < n)%Z ->
     complete_task (H := Demo.host) n Demo.busy
     = (Return not_found_message, Demo.busy)).
Proof.
  apply (complete_task_finds_by_position (H := Demo.host) Demo.busy
           [Demo.write_spec; Demo.ship_it]); reflexivity.
Defined.

Lemma added_task_can_be_completed_witness :
  exists d,
    tasks (snd (add_task (H := Demo.host) Claude "Refactor module" Demo.busy))
    = JArr ([Demo.write_spec; Demo.ship_it] ++ [JObj d]) /\
    dict_get "status" d = Some (JStr "pending") /\
    tasks (snd (complete_task (H := Demo.host) 3
                  (snd (add_task (H := Demo.host) Claude "Refactor module"
                          Demo.busy))))
    = JArr ([Demo.write_spec; Demo.ship_it]
            ++ [JObj (mark_completed (Demo.clock 1) d)]).
Proof.
  eapply (added_task_can_be_completed (H := Demo.host) Claude
            "Refactor module" _ Demo.busy [Demo.write_spec; Demo.ship_it]);
    reflexivity.
Defined.

